(** * telegram-ygoprices-bot: a shallow embedding of [main.go]

    The bot is a webhook relay: it decodes a Telegram update, recognises
    the command [/priceprinttag], asks yugiohprices.com for the prices of
    a print tag and posts a reply to the chat.

    Go strings are byte strings; they are embedded as [string] (lists of
    [ascii], one per byte).  Integers are [Z], with the [int64] range
    written out where the code depends on it.  [float64] values are
    [spec_float] (sign, mantissa, exponent).  The two outbound HTTP calls
    are the effects the handler is observed by: they are recorded in a
    trace, and the answers of the network are the variables of a section.
    The functions of Go's standard library that the handler calls are
    modelled as far as the handler uses them.  The router, the server
    set-up in [main] and the calls to the logger are left out. *)

From Stdlib Require Import ZArith List String Ascii Bool Lia.
From Stdlib Require Import Floats.SpecFloat.
From Stdlib Require DecimalString.
Import ListNotations.

Local Open Scope string_scope.
Local Open Scope Z_scope.

(** ** Bytes *)

Definition byteZ (c : ascii) : Z := Z.of_N (N_of_ascii c).
Definition byteOf (z : Z) : ascii := ascii_of_N (Z.to_N z).

Definition LF : string := String "010"%char EmptyString.
Definition DQ : ascii := "034"%char.

(** ** Package [unicode/utf8] *)

Definition rune := Z.
Definition RuneError : rune := 65533.
Definition RuneSelf : Z := 128.
Definition MaxRune : rune := 1114111.

(** [first] and [acceptRanges] of utf8.go: for a leading byte, the size of
    the sequence and the range accepted for its second byte. *)
Definition firstInfo (b0 : Z) : option (nat * Z * Z) :=
  if (194 <=? b0) && (b0 <=? 223) then Some (2%nat, 128, 191)
  else if b0 =? 224 then Some (3%nat, 160, 191)
  else if (225 <=? b0) && (b0 <=? 236) then Some (3%nat, 128, 191)
  else if b0 =? 237 then Some (3%nat, 128, 159)
  else if (238 <=? b0) && (b0 <=? 239) then Some (3%nat, 128, 191)
  else if b0 =? 240 then Some (4%nat, 144, 191)
  else if (241 <=? b0) && (b0 <=? 243) then Some (4%nat, 128, 191)
  else if b0 =? 244 then Some (4%nat, 128, 143)
  else None.

Definition isCont (b : Z) : bool := (128 <=? b) && (b <=? 191).

(** utf8.DecodeRuneInString: the first rune of [s] and its width in bytes;
    [(RuneError, 1)] on an invalid sequence, [(RuneError, 0)] on [""]. *)
Definition DecodeRuneInString (s : string) : rune * nat :=
  match s with
  | EmptyString => (RuneError, 0%nat)
  | String c0 s1 =>
    let s0 := byteZ c0 in
    if s0 <? RuneSelf then (s0, 1%nat)
    else
      match firstInfo s0 with
      | None => (RuneError, 1%nat)
      | Some (sz, lo, hi) =>
        if (Nat.ltb (String.length s) sz) then (RuneError, 1%nat)
        else
          match s1 with
          | EmptyString => (RuneError, 1%nat)
          | String c1 s2 =>
            let b1 := byteZ c1 in
            if (b1 <? lo) || (hi <? b1) then (RuneError, 1%nat)
            else if Nat.leb sz 2 then
              (Z.lor (Z.shiftl (Z.land s0 31) 6) (Z.land b1 63), 2%nat)
            else
              match s2 with
              | EmptyString => (RuneError, 1%nat)
              | String c2 s3 =>
                let b2 := byteZ c2 in
                if negb (isCont b2) then (RuneError, 1%nat)
                else if Nat.leb sz 3 then
                  (Z.lor (Z.shiftl (Z.land s0 15) 12)
                     (Z.lor (Z.shiftl (Z.land b1 63) 6) (Z.land b2 63)), 3%nat)
                else
                  match s3 with
                  | EmptyString => (RuneError, 1%nat)
                  | String c3 _ =>
                    let b3 := byteZ c3 in
                    if negb (isCont b3) then (RuneError, 1%nat)
                    else
                      (Z.lor (Z.shiftl (Z.land s0 7) 18)
                         (Z.lor (Z.shiftl (Z.land b1 63) 12)
                            (Z.lor (Z.shiftl (Z.land b2 63) 6) (Z.land b3 63))),
                       4%nat)
                  end
              end
          end
      end
  end.

Definition isSurrogate (r : rune) : bool := (55296 <=? r) && (r <=? 57343).

Definition contByte (r : rune) (shift : Z) : ascii :=
  byteOf (Z.lor 128 (Z.land (Z.shiftr r shift) 63)).

Definition encode3 (r : rune) : string :=
  String (byteOf (Z.lor 224 (Z.shiftr r 12)))
    (String (contByte r 6) (String (contByte r 0) EmptyString)).

(** utf8.AppendRune / strings.Builder.WriteRune: the UTF-8 encoding of [r];
    a rune out of range or a surrogate is written as U+FFFD. *)
Definition EncodeRune (r : rune) : string :=
  if (0 <=? r) && (r <=? 127) then String (byteOf r) EmptyString
  else if (0 <=? r) && (r <=? 2047) then
    String (byteOf (Z.lor 192 (Z.shiftr r 6))) (String (contByte r 0) EmptyString)
  else if (r <? 0) || (MaxRune <? r) || isSurrogate r then encode3 RuneError
  else if r <=? 65535 then encode3 r
  else
    String (byteOf (Z.lor 240 (Z.shiftr r 18)))
      (String (contByte r 12) (String (contByte r 6) (String (contByte r 0) EmptyString))).

(** ** Package [strings] *)

Definition isUpperASCII (c : ascii) : bool := (65 <=? byteZ c) && (byteZ c <=? 90).
Definition isLowerASCII (c : ascii) : bool := (97 <=? byteZ c) && (byteZ c <=? 122).

Fixpoint isASCII (s : string) : bool :=
  match s with
  | EmptyString => true
  | String c s' => (byteZ c <? RuneSelf) && isASCII s'
  end.

Fixpoint hasUpper (s : string) : bool :=
  match s with
  | EmptyString => false
  | String c s' => isUpperASCII c || hasUpper s'
  end.

(** The ASCII loop of strings.ToLower: [c += 'a' - 'A'] on upper-case bytes. *)
Fixpoint lowerASCII (s : string) : string :=
  match s with
  | EmptyString => EmptyString
  | String c s' =>
    String (if isUpperASCII c then byteOf (byteZ c + 32) else c) (lowerASCII s')
  end.

(** strings.Map: every rune of [s] (an invalid byte counting as U+FFFD) is
    replaced by the encoding of its image; a negative image is dropped.
    [skip] counts the bytes of the current rune still to be passed over. *)
Fixpoint MapFrom (mapping : rune -> rune) (skip : nat) (s : string) : string :=
  match s with
  | EmptyString => EmptyString
  | String _ s' =>
    match skip with
    | S k => MapFrom mapping k s'
    | O =>
      let (c, width) := DecodeRuneInString s in
      let r := mapping c in
      (if r <? 0 then EmptyString else EncodeRune r) ++ MapFrom mapping (width - 1) s'
    end
  end.

Definition Map (mapping : rune -> rune) (s : string) : string := MapFrom mapping 0 s.

(** strings.Index: the byte offset of the first occurrence, or -1. *)
Fixpoint IndexFrom (i : Z) (s substr : string) : Z :=
  if String.prefix substr s then i
  else
    match s with
    | EmptyString => -1
    | String _ s' => IndexFrom (i + 1) s' substr
    end.

Definition Index (s substr : string) : Z := IndexFrom 0 s substr.

Definition Contains (s substr : string) : bool := 0 <=? Index s substr.

Definition revString (s : string) : string :=
  string_of_list_ascii (List.rev (list_ascii_of_string s)).

(** strings.Split with a non-empty separator: cut at every occurrence of
    [sep], left to right, without overlap.  [cur] holds the bytes of the
    piece being read, last byte first. *)
Fixpoint splitFrom (sep : string) (skip : nat) (cur : string) (s : string) : list string :=
  match s with
  | EmptyString => [revString cur]
  | String c s' =>
    match skip with
    | S k => splitFrom sep k cur s'
    | O =>
      if String.prefix sep s
      then revString cur :: splitFrom sep (String.length sep - 1) EmptyString s'
      else splitFrom sep 0 (String c cur) s'
    end
  end.

(** strings.Split with the empty separator: one piece per UTF-8 sequence. *)
Fixpoint explode (skip : nat) (s : string) : list string :=
  match s with
  | EmptyString => []
  | String _ s' =>
    match skip with
    | S k => explode k s'
    | O =>
      let (_, width) := DecodeRuneInString s in
      String.substring 0 width s :: explode (width - 1) s'
    end
  end.

Definition Split (s sep : string) : list string :=
  match sep with
  | EmptyString => explode 0 s
  | _ => splitFrom sep 0 EmptyString s
  end.

Section ToLower.

(** The case tables of package [unicode] are not part of the repository:
    [unicode.ToLower] is a parameter.  It is only consulted for texts that
    hold a byte outside ASCII. *)
Variable unicode_ToLower : rune -> rune.

Definition ToLower (s : string) : string :=
  if isASCII s then
    if negb (hasUpper s) then s else lowerASCII s
  else Map unicode_ToLower s.

End ToLower.

(** ** Package [strconv]: [FormatFloat(f, 'f', prec, 64)] *)

Definition float64 := spec_float.

(** A float64 literal: the binary64 value nearest to [m * 2^e]. *)
Definition f64 (m e : Z) : float64 := binary_normalize 53 1024 m e false.

Definition decimal (n : Z) : string :=
  DecimalString.NilZero.string_of_uint (N.to_uint (Z.to_N n)).

(** [num / den] rounded to the nearest integer, a tie going to the even one
    (decimal.Round and shouldRoundUp of strconv work on the exact digits). *)
Definition roundHalfEven (num den : Z) : Z :=
  let q := num / den in
  let r := num mod den in
  match 2 * r ?= den with
  | Lt => q
  | Gt => q + 1
  | Eq => if Z.even q then q else q + 1
  end.

(** [m * 2^e * 10^prec], rounded to an integer. *)
Definition scaled (prec : nat) (m : positive) (e : Z) : Z :=
  let p := 10 ^ Z.of_nat prec in
  if 0 <=? e then Zpos m * 2 ^ e * p
  else roundHalfEven (Zpos m * p) (2 ^ (- e)).

Fixpoint zeros (n : nat) : string :=
  match n with
  | O => EmptyString
  | S k => String "0" (zeros k)
  end.

Definition padLeft (width : nat) (s : string) : string :=
  zeros (width - String.length s) ++ s.

(** The digits of [n / 10^prec]: sign, integer part, and [prec] decimals
    after a point when [prec > 0]. *)
Definition fmtF (prec : nat) (neg : bool) (n : Z) : string :=
  let p := 10 ^ Z.of_nat prec in
  (if neg then "-" else EmptyString) ++ decimal (n / p) ++
  match prec with
  | O => EmptyString
  | S _ => "." ++ padLeft prec (decimal (n mod p))
  end.

Definition FormatFloat_f (f : float64) (prec : nat) : string :=
  match f with
  | S754_nan => "NaN"
  | S754_infinity false => "+Inf"
  | S754_infinity true => "-Inf"
  | S754_zero s => fmtF prec s 0
  | S754_finite s m e => fmtF prec s (scaled prec m e)
  end.

(** ** Package [fmt]: [Sprintf] on float64 operands

    The fragment of the format language the program uses: literal bytes,
    [%%], and [%f] with an optional precision [%.Nf].  A verb with no
    operand left prints [%!f(MISSING)], a format that ends inside a
    directive prints [%!(NOVERB)], as in Go.  Other verbs and flags, and
    operands left over, are outside the fragment: the model copies such a
    directive's verb through and drops the operands. *)

Inductive printState :=
| InText
| AfterPercent
| InPrecision (prec : nat).

Definition isDigit (c : ascii) : bool := (48 <=? byteZ c) && (byteZ c <=? 57).
Definition digitVal (c : ascii) : nat := Z.to_nat (byteZ c - 48).

Fixpoint doPrintf (st : printState) (format : string) (a : list float64) : string :=
  match format with
  | EmptyString =>
    match st with
    | InText => EmptyString
    | _ => "%!(NOVERB)"
    end
  | String c rest =>
    let verb (prec : nat) :=
      if Ascii.eqb c "f" then
        match a with
        | x :: a' => FormatFloat_f x prec ++ doPrintf InText rest a'
        | [] => "%!f(MISSING)" ++ doPrintf InText rest []
        end
      else String c (doPrintf InText rest a) in
    match st with
    | InText =>
      if Ascii.eqb c "%" then doPrintf AfterPercent rest a
      else String c (doPrintf InText rest a)
    | AfterPercent =>
      if Ascii.eqb c "%" then String c (doPrintf InText rest a)
      else if Ascii.eqb c "." then doPrintf (InPrecision 0) rest a
      else verb 6%nat
    | InPrecision n =>
      if isDigit c then doPrintf (InPrecision (10 * n + digitVal c)) rest a
      else verb n
    end
  end.

Definition Sprintf (format : string) (a : list float64) : string :=
  doPrintf InText format a.

(** ** Package [encoding/json]: reading one value

    [Decoder.Decode] reads the first JSON value of the stream (what follows
    it is left unread) and stores it into the target.  The scanner's
    grammar is modelled as a recursive-descent reader to a syntax tree. *)

#[local] Set Warnings "-register-all".

Inductive json :=
| JNull
| JBool (b : bool)
| JNumber (lit : string)
| JString (s : string)
| JArray (elems : list json)
| JObject (members : list (string * json)).

Inductive error :=
| EOF
| SyntaxError
| UnmarshalTypeError (value : string)
| NetworkError (msg : string)
| errorString (s : string).

Definition isSpace (c : ascii) : bool :=
  let b := byteZ c in (b =? 32) || (b =? 9) || (b =? 13) || (b =? 10).

Fixpoint skipSpace (s : string) : string :=
  match s with
  | EmptyString => EmptyString
  | String c s' => if isSpace c then skipSpace s' else s
  end.

Fixpoint dropBytes (n : nat) (s : string) : string :=
  match n, s with
  | O, _ => s
  | S k, EmptyString => EmptyString
  | S k, String _ s' => dropBytes k s'
  end.

Definition hexVal (c : ascii) : option Z :=
  let b := byteZ c in
  if (48 <=? b) && (b <=? 57) then Some (b - 48)
  else if (97 <=? b) && (b <=? 102) then Some (b - 87)
  else if (65 <=? b) && (b <=? 70) then Some (b - 55)
  else None.

(** getu4: the value of a [\uXXXX] escape at the head of [s], and what
    follows the escape. *)
Definition getu4 (s : string) : option (Z * string) :=
  match s with
  | String bs (String u (String a (String b (String c (String d rest))))) =>
    if Ascii.eqb bs "\" && Ascii.eqb u "u" then
      match hexVal a, hexVal b, hexVal c, hexVal d with
      | Some x3, Some x2, Some x1, Some x0 =>
        Some (((x3 * 16 + x2) * 16 + x1) * 16 + x0, rest)
      | _, _, _, _ => None
      end
    else None
  | _ => None
  end.

(** utf16.DecodeRune *)
Definition utf16_DecodeRune (r1 r2 : rune) : rune :=
  if (55296 <=? r1) && (r1 <? 56320) && (56320 <=? r2) && (r2 <? 57344)
  then Z.lor (Z.shiftl (r1 - 55296) 10) (r2 - 56320) + 65536
  else RuneError.

Definition simpleEscape (c : ascii) : option ascii :=
  if Ascii.eqb c DQ then Some DQ
  else if Ascii.eqb c "\" then Some "\"%char
  else if Ascii.eqb c "/" then Some "/"%char
  else if Ascii.eqb c "b" then Some "008"%char
  else if Ascii.eqb c "f" then Some "012"%char
  else if Ascii.eqb c "n" then Some "010"%char
  else if Ascii.eqb c "r" then Some "013"%char
  else if Ascii.eqb c "t" then Some "009"%char
  else None.

(** What a reader returns: a value and the bytes that follow it; or that
    the input is no JSON; or that it stopped short of fuel, which the fuel
    given by [readValue] rules out (see [readValue_total]). *)
Inductive scanned (A : Type) : Type :=
| Scanned (a : A) (rest : string)
| Invalid
| Exhausted.

Arguments Scanned {A} a rest.
Arguments Invalid {A}.
Arguments Exhausted {A}.

Definition andThen {A B : Type} (r : scanned A) (k : A -> string -> scanned B) : scanned B :=
  match r with
  | Scanned a rest => k a rest
  | Invalid => Invalid
  | Exhausted => Exhausted
  end.

Definition ofOption {A : Type} (r : option (A * string)) : scanned A :=
  match r with
  | Some (a, rest) => Scanned a rest
  | None => Invalid
  end.

Definition consTo (p : string) (r : scanned string) : scanned string :=
  andThen r (fun t rest => Scanned (p ++ t) rest).

(** The scanner's string states followed by unquote: [s] starts after the
    opening quote; the result is the string's content, coerced to
    well-formed UTF-8, and what follows the closing quote. *)
Fixpoint readString (fuel : nat) (s : string) : scanned string :=
  match fuel with
  | O => Exhausted
  | S fuel' =>
    match s with
    | EmptyString => Invalid
    | String c s' =>
      if Ascii.eqb c DQ then Scanned EmptyString s'
      else if Ascii.eqb c "\" then
        match s' with
        | EmptyString => Invalid
        | String e s'' =>
          if Ascii.eqb e "u" then
            match getu4 s with
            | None => Invalid
            | Some (rr, rest) =>
              if isSurrogate rr then
                match getu4 rest with
                | Some (rr1, rest1) =>
                  let dec := utf16_DecodeRune rr rr1 in
                  if dec =? RuneError
                  then consTo (EncodeRune RuneError) (readString fuel' rest)
                  else consTo (EncodeRune dec) (readString fuel' rest1)
                | None => consTo (EncodeRune RuneError) (readString fuel' rest)
                end
              else consTo (EncodeRune rr) (readString fuel' rest)
            end
          else
            match simpleEscape e with
            | Some ch => consTo (String ch EmptyString) (readString fuel' s'')
            | None => Invalid
            end
        end
      else if byteZ c <? 32 then Invalid
      else if byteZ c <? RuneSelf then consTo (String c EmptyString) (readString fuel' s')
      else
        let (rr, size) := DecodeRuneInString s in
        consTo (EncodeRune rr) (readString fuel' (dropBytes size s))
    end
  end.

Fixpoint spanDigits (s : string) : string * string :=
  match s with
  | EmptyString => (EmptyString, EmptyString)
  | String c s' =>
    if isDigit c then let (ds, rest) := spanDigits s' in (String c ds, rest)
    else (EmptyString, s)
  end.

Definition isExpChar (c : ascii) : bool := Ascii.eqb c "e" || Ascii.eqb c "E".
Definition isSignChar (c : ascii) : bool := Ascii.eqb c "+" || Ascii.eqb c "-".

(** states stateE, stateESign, stateE0 *)
Definition readExp (acc s : string) : option (string * string) :=
  match s with
  | String c r =>
    if isExpChar c then
      let (sg, r1) :=
        match r with
        | String c1 r' => if isSignChar c1 then (String c1 EmptyString, r') else (EmptyString, r)
        | EmptyString => (EmptyString, r)
        end in
      let (ds, r2) := spanDigits r1 in
      match ds with
      | EmptyString => None
      | _ => Some (acc ++ String c sg ++ ds, r2)
      end
    else Some (acc, s)
  | EmptyString => Some (acc, s)
  end.

(** states stateDot, stateDot0 *)
Definition readFrac (acc s : string) : option (string * string) :=
  match s with
  | String c r =>
    if Ascii.eqb c "." then
      let (ds, r1) := spanDigits r in
      match ds with
      | EmptyString => None
      | _ => readExp (acc ++ String c ds) r1
      end
    else readExp acc s
  | EmptyString => Some (acc, s)
  end.

(** states stateNeg, state0, state1: [s] starts at the sign or first digit. *)
Definition readNumber (s : string) : option (string * string) :=
  let (sg, s1) :=
    match s with
    | String c r => if Ascii.eqb c "-" then (String c EmptyString, r) else (EmptyString, s)
    | EmptyString => (EmptyString, s)
    end in
  match s1 with
  | String c r =>
    if Ascii.eqb c "0" then readFrac (sg ++ String c EmptyString) r
    else if isDigit c then
      let (ds, r1) := spanDigits r in readFrac (sg ++ String c ds) r1
    else None
  | EmptyString => None
  end.

Definition readLiteral (word : string) (v : json) (s : string) : option (json * string) :=
  if String.prefix word s then Some (v, dropBytes (String.length word) s) else None.

(** maxNestingDepth of scanner.go *)
Definition maxNestingDepth : Z := 10000.

Fixpoint parseValue (fuel : nat) (depth : Z) (s : string) {struct fuel}
  : scanned json :=
  match fuel with
  | O => Exhausted
  | S fuel' =>
    match skipSpace s with
    | EmptyString => Invalid
    | String c r as s0 =>
      if Ascii.eqb c "{" then
        if maxNestingDepth <? depth + 1 then Invalid
        else
          match skipSpace r with
          | String c1 r1 as r0 =>
            if Ascii.eqb c1 "}" then Scanned (JObject []) r1
            else
              andThen (parseMembers fuel' (depth + 1) r0)
                (fun ms rest => Scanned (JObject ms) rest)
          | EmptyString => Invalid
          end
      else if Ascii.eqb c "[" then
        if maxNestingDepth <? depth + 1 then Invalid
        else
          match skipSpace r with
          | String c1 r1 as r0 =>
            if Ascii.eqb c1 "]" then Scanned (JArray []) r1
            else
              andThen (parseElems fuel' (depth + 1) r0)
                (fun vs rest => Scanned (JArray vs) rest)
          | EmptyString => Invalid
          end
      else if Ascii.eqb c DQ then
        andThen (readString (S (String.length r)) r)
          (fun str rest => Scanned (JString str) rest)
      else if Ascii.eqb c "-" || isDigit c then
        andThen (ofOption (readNumber s0)) (fun lit rest => Scanned (JNumber lit) rest)
      else if Ascii.eqb c "t" then ofOption (readLiteral "true" (JBool true) s0)
      else if Ascii.eqb c "f" then ofOption (readLiteral "false" (JBool false) s0)
      else if Ascii.eqb c "n" then ofOption (readLiteral "null" JNull s0)
      else Invalid
    end
  end

with parseMembers (fuel : nat) (depth : Z) (s : string) {struct fuel}
  : scanned (list (string * json)) :=
  match fuel with
  | O => Exhausted
  | S fuel' =>
    match skipSpace s with
    | String c r =>
      if Ascii.eqb c DQ then
        andThen (readString (S (String.length r)) r) (fun key r1 =>
          match skipSpace r1 with
          | String c2 r2 =>
            if Ascii.eqb c2 ":" then
              andThen (parseValue fuel' depth r2) (fun v r3 =>
                match skipSpace r3 with
                | String c4 r4 =>
                  if Ascii.eqb c4 "," then
                    andThen (parseMembers fuel' depth r4)
                      (fun ms rest => Scanned ((key, v) :: ms) rest)
                  else if Ascii.eqb c4 "}" then Scanned [(key, v)] r4
                  else Invalid
                | EmptyString => Invalid
                end)
            else Invalid
          | EmptyString => Invalid
          end)
      else Invalid
    | EmptyString => Invalid
    end
  end

with parseElems (fuel : nat) (depth : Z) (s : string) {struct fuel}
  : scanned (list json) :=
  match fuel with
  | O => Exhausted
  | S fuel' =>
    andThen (parseValue fuel' depth s) (fun v r1 =>
      match skipSpace r1 with
      | String c2 r2 =>
        if Ascii.eqb c2 "," then
          andThen (parseElems fuel' depth r2) (fun vs rest => Scanned (v :: vs) rest)
        else if Ascii.eqb c2 "]" then Scanned [v] r2
        else Invalid
      | EmptyString => Invalid
      end)
  end.

(** The first value of the stream.  The fuel is two steps per byte: a
    reader takes a byte before it calls the next, but for the first
    element of an array. *)
Definition readValue (data : string) : option json :=
  match parseValue (2 * String.length data + 2) 0 data with
  | Scanned v _ => Some v
  | _ => None
  end.

(** ** Package [encoding/json]: storing a value into a struct

    The decoder walks the value along the target's type.  A value of the
    wrong kind records an [UnmarshalTypeError] and is skipped; the first
    error recorded is the one [Decode] returns, after the whole value has
    been walked.  [null] leaves a field of a non-pointer type as it is. *)

Definition store (T : Type) : Type := json -> T -> T * option error.

Definition firstError (e1 e2 : option error) : option error :=
  match e1 with
  | Some _ => e1
  | None => e2
  end.

Definition kindName (v : json) : string :=
  match v with
  | JNull => "null"
  | JBool _ => "bool"
  | JNumber _ => "number"
  | JString _ => "string"
  | JArray _ => "array"
  | JObject _ => "object"
  end.

(** foldName: the key a member name is compared under when no field has
    exactly that name.  ASCII letters fold to upper case; the two runes
    outside ASCII that fold to an ASCII letter are U+017F (to S) and
    U+212A (to K).  Field names here are ASCII, so the other runes, which
    fold among themselves, are left as they are. *)
Fixpoint foldName (s : string) : string :=
  match s with
  | EmptyString => EmptyString
  | String c s' =>
    if isLowerASCII c then String (byteOf (byteZ c - 32)) (foldName s')
    else
      match s' with
      | String c1 s1 =>
        if (byteZ c =? 197) && (byteZ c1 =? 191) then String "S" (foldName s1)
        else
          match s1 with
          | String c2 s2 =>
            if (byteZ c =? 226) && (byteZ c1 =? 132) && (byteZ c2 =? 170)
            then String "K" (foldName s2)
            else String c (foldName s')
          | EmptyString => String c (foldName s')
          end
      | EmptyString => String c EmptyString
      end
  end.

Section Fields.

Context {T : Type}.

(** The fields of a struct type: the name of each in JSON, and how a
    value is stored into it. *)
Definition fields : Type := list (string * store T).

Fixpoint byExactName (fs : fields) (key : string) : option (store T) :=
  match fs with
  | [] => None
  | (name, st) :: fs' => if String.eqb name key then Some st else byExactName fs' key
  end.

Fixpoint byFoldedName (fs : fields) (folded : string) : option (store T) :=
  match fs with
  | [] => None
  | (name, st) :: fs' =>
    if String.eqb (foldName name) folded then Some st else byFoldedName fs' folded
  end.

Definition findField (fs : fields) (key : string) : option (store T) :=
  match byExactName fs key with
  | Some st => Some st
  | None => byFoldedName fs (foldName key)
  end.

(** decodeState.object on a struct: the members in order, each stored
    into the field its name finds; a member with no field is skipped. *)
Fixpoint storeMembers (fs : fields) (ms : list (string * json)) (cur : T)
  : T * option error :=
  match ms with
  | [] => (cur, None)
  | (key, v) :: ms' =>
    let (cur1, e1) :=
      match findField fs key with
      | Some st => st v cur
      | None => (cur, None)
      end in
    let (cur2, e2) := storeMembers fs ms' cur1 in
    (cur2, firstError e1 e2)
  end.

Definition storeStruct (fs : fields) : store T :=
  fun v cur =>
    match v with
    | JNull => (cur, None)
    | JObject ms => storeMembers fs ms cur
    | _ => (cur, Some (UnmarshalTypeError (kindName v)))
    end.

End Fields.

(** A field of type [U] inside a struct of type [T]. *)
Definition inField {T U : Type} (get : T -> U) (set : U -> T -> T) (st : store U)
  : store T :=
  fun v cur => let (u, e) := st v (get cur) in (set u cur, e).

Definition storeString : store string :=
  fun v cur =>
    match v with
    | JNull => (cur, None)
    | JString s => (s, None)
    | _ => (cur, Some (UnmarshalTypeError (kindName v)))
    end.

Fixpoint digitsValue (acc : Z) (s : string) : option Z :=
  match s with
  | EmptyString => Some acc
  | String c s' => if isDigit c then digitsValue (10 * acc + (byteZ c - 48)) s' else None
  end.

(** strconv.ParseInt(s, 10, 64) on a JSON number: [None] when the literal
    has a fraction or an exponent, or is out of the int64 range. *)
Definition ParseInt64 (lit : string) : option Z :=
  let (neg, ds) :=
    match lit with
    | String c r => if Ascii.eqb c "-" then (true, r) else (false, lit)
    | EmptyString => (false, lit)
    end in
  match ds with
  | EmptyString => None
  | _ =>
    match digitsValue 0 ds with
    | Some n =>
      let z := if neg then - n else n in
      if (- 2 ^ 63 <=? z) && (z <=? 2 ^ 63 - 1) then Some z else None
    | None => None
    end
  end.

Definition storeInt64 : store Z :=
  fun v cur =>
    match v with
    | JNull => (cur, None)
    | JNumber lit =>
      match ParseInt64 lit with
      | Some n => (n, None)
      | None => (cur, Some (UnmarshalTypeError ("number " ++ lit)))
      end
    | _ => (cur, Some (UnmarshalTypeError (kindName v)))
    end.

(** strconv.ParseFloat(s, 64) on a JSON number: the binary64 value nearest
    to the decimal (ties to even); [None] stands for a range error, when
    the value rounds to an infinity. *)
Definition decimalToFloat64 (neg : bool) (m k : Z) : float64 :=
  match m with
  | Zpos _ =>
    if 0 <=? k then binary_round 53 1024 neg (Z.to_pos (m * 10 ^ k)) 0
    else
      let '(mz, ez, lz) := SFdiv_core_binary 53 1024 m 0 (10 ^ (- k)) 0 in
      binary_round_aux 53 1024 neg mz ez lz
  | _ => S754_zero neg
  end.

Definition ParseFloat64 (lit : string) : option float64 :=
  let (neg, s1) :=
    match lit with
    | String c r => if Ascii.eqb c "-" then (true, r) else (false, lit)
    | EmptyString => (false, lit)
    end in
  let (ip, s2) := spanDigits s1 in
  let (fp, s3) :=
    match s2 with
    | String c r => if Ascii.eqb c "." then spanDigits r else (EmptyString, s2)
    | EmptyString => (EmptyString, s2)
    end in
  let ex : option Z :=
    match s3 with
    | EmptyString => Some 0
    | String c r =>
      if isExpChar c then
        match r with
        | String c1 r1 =>
          if Ascii.eqb c1 "-" then option_map Z.opp (digitsValue 0 r1)
          else if Ascii.eqb c1 "+" then digitsValue 0 r1
          else digitsValue 0 r
        | EmptyString => None
        end
      else None
    end in
  match digitsValue 0 (ip ++ fp), ex with
  | Some m, Some e =>
    match decimalToFloat64 neg m (e - Z.of_nat (String.length fp)) with
    | S754_infinity _ => None
    | f => Some f
    end
  | _, _ => None
  end.

Definition storeFloat64 : store float64 :=
  fun v cur =>
    match v with
    | JNull => (cur, None)
    | JNumber lit =>
      match ParseFloat64 lit with
      | Some f => (f, None)
      | None => (cur, Some (UnmarshalTypeError ("number " ++ lit)))
      end
    | _ => (cur, Some (UnmarshalTypeError (kindName v)))
    end.

(** convertNumber: a number that goes into an [interface{}] becomes a
    float64 through [strconv.ParseFloat]; one that overflows is an
    [UnmarshalTypeError]. *)
Definition convertNumber (lit : string) : option error :=
  match ParseFloat64 lit with
  | Some _ => None
  | None => Some (UnmarshalTypeError ("number " ++ lit))
  end.

(** valueInterface: the Go value that a JSON value nested in an
    [interface{}] becomes, as a tree ([JNull] stands for nil), and the
    first error recorded on the way.  Every number in the value is
    converted, in the order of the text; one that overflows leaves nil in
    its place. *)
Fixpoint valueInterface (v : json) : json * option error :=
  match v with
  | JNumber lit =>
    match convertNumber lit with
    | None => (v, None)
    | Some err => (JNull, Some err)
    end
  | JArray vs =>
    let (vs', e) :=
      (fix elems (l : list json) : list json * option error :=
         match l with
         | [] => ([], None)
         | x :: l' =>
           let (x', e1) := valueInterface x in
           let (l'', e2) := elems l' in
           (x' :: l'', firstError e1 e2)
         end) vs in
    (JArray vs', e)
  | JObject ms =>
    let (ms', e) :=
      (fix members (l : list (string * json)) : list (string * json) * option error :=
         match l with
         | [] => ([], None)
         | (key, x) :: l' =>
           let (x', e1) := valueInterface x in
           let (l'', e2) := members l' in
           ((key, x') :: l'', firstError e1 e2)
         end) ms in
    (JObject ms', e)
  | _ => (v, None)
  end.

(** A field of type [interface{}]: any value is stored; a number that
    overflows float64 is an error and leaves the field as it is. *)
Definition storeInterface : store json :=
  fun v cur =>
    match v with
    | JNumber lit =>
      match convertNumber lit with
      | None => (v, None)
      | Some err => (cur, Some err)
      end
    | _ => valueInterface v
    end.

(** The elements of an array stored one by one into a slice of
    [interface{}], each over the element the slice held at that place. *)
Fixpoint storeElems (vs cur : list json) : list json * option error :=
  match vs with
  | [] => ([], None)
  | x :: vs' =>
    let (old, cur') :=
      match cur with
      | [] => (JNull, [])
      | o :: c => (o, c)
      end in
    let (x', e1) := storeInterface x old in
    let (l, e2) := storeElems vs' cur' in
    (x' :: l, firstError e1 e2)
  end.

(** A field of type [[]interface{}]: an array, element by element, or null
    for the nil slice. *)
Definition storeSlice : store (list json) :=
  fun v cur =>
    match v with
    | JNull => ([], None)
    | JArray vs => storeElems vs cur
    | _ => (cur, Some (UnmarshalTypeError (kindName v)))
    end.

(** ** The structs of [main.go]

    Each struct is a record in a module of its own, with its zero value,
    one update function per field and the store that [encoding/json]
    derives from the field tags.  The anonymous struct types nested in a
    declaration are named after the field they are the type of. *)

(** *** [webhookReqBody] *)
Module webhookReqBody.

(** the type of [Message.Chat] *)
Module Chat.

Record t := {
  ID : Z
}.

Definition zero : t :=
  {| ID := 0 |}.

Definition set_ID (x : Z) (r : t) : t :=
  {| ID := x |}.

Definition fieldsOf : fields :=
  [ ("id", inField ID set_ID storeInt64) ].

Definition unmarshal : store t := storeStruct fieldsOf.

End Chat.

(** the type of [Message] *)
Module Message.

Record t := {
  Text : string;
  Chat : Chat.t
}.

Definition zero : t :=
  {| Text := EmptyString;
     Chat := Chat.zero |}.

Definition set_Text (x : string) (r : t) : t :=
  {| Text := x; Chat := Chat r |}.

Definition set_Chat (x : Chat.t) (r : t) : t :=
  {| Text := Text r; Chat := x |}.

Definition fieldsOf : fields :=
  [ ("text", inField Text set_Text storeString);
    ("chat", inField Chat set_Chat Chat.unmarshal) ].

Definition unmarshal : store t := storeStruct fieldsOf.

End Message.

Record t := {
  Message : Message.t
}.

Definition zero : t :=
  {| Message := Message.zero |}.

Definition set_Message (x : Message.t) (r : t) : t :=
  {| Message := x |}.

Definition fieldsOf : fields :=
  [ ("message", inField Message set_Message Message.unmarshal) ].

Definition unmarshal : store t := storeStruct fieldsOf.

End webhookReqBody.

(** *** [ygoPricesPriceForPrintTagResponse] *)
Module ygoPricesPriceForPrintTagResponse.

(** the type of [Data.PriceData.PriceData.Data.Prices] *)
Module Prices.

Record t := {
  High : float64;
  Low : float64;
  Average : float64;
  Shift : float64;
  Shift3 : float64;
  Shift7 : float64;
  Shift21 : float64;
  Shift30 : float64;
  Shift90 : float64;
  Shift180 : float64;
  Shift365 : float64;
  UpdatedAt : string
}.

Definition zero : t :=
  {| High := S754_zero false;
     Low := S754_zero false;
     Average := S754_zero false;
     Shift := S754_zero false;
     Shift3 := S754_zero false;
     Shift7 := S754_zero false;
     Shift21 := S754_zero false;
     Shift30 := S754_zero false;
     Shift90 := S754_zero false;
     Shift180 := S754_zero false;
     Shift365 := S754_zero false;
     UpdatedAt := EmptyString |}.

Definition set_High (x : float64) (r : t) : t :=
  {| High := x; Low := Low r; Average := Average r; Shift := Shift r; Shift3 := Shift3
     r; Shift7 := Shift7 r; Shift21 := Shift21 r; Shift30 := Shift30 r; Shift90 :=
     Shift90 r; Shift180 := Shift180 r; Shift365 := Shift365 r; UpdatedAt := UpdatedAt r
     |}.

Definition set_Low (x : float64) (r : t) : t :=
  {| High := High r; Low := x; Average := Average r; Shift := Shift r; Shift3 := Shift3
     r; Shift7 := Shift7 r; Shift21 := Shift21 r; Shift30 := Shift30 r; Shift90 :=
     Shift90 r; Shift180 := Shift180 r; Shift365 := Shift365 r; UpdatedAt := UpdatedAt r
     |}.

Definition set_Average (x : float64) (r : t) : t :=
  {| High := High r; Low := Low r; Average := x; Shift := Shift r; Shift3 := Shift3 r;
     Shift7 := Shift7 r; Shift21 := Shift21 r; Shift30 := Shift30 r; Shift90 := Shift90
     r; Shift180 := Shift180 r; Shift365 := Shift365 r; UpdatedAt := UpdatedAt r |}.

Definition set_Shift (x : float64) (r : t) : t :=
  {| High := High r; Low := Low r; Average := Average r; Shift := x; Shift3 := Shift3 r;
     Shift7 := Shift7 r; Shift21 := Shift21 r; Shift30 := Shift30 r; Shift90 := Shift90
     r; Shift180 := Shift180 r; Shift365 := Shift365 r; UpdatedAt := UpdatedAt r |}.

Definition set_Shift3 (x : float64) (r : t) : t :=
  {| High := High r; Low := Low r; Average := Average r; Shift := Shift r; Shift3 := x;
     Shift7 := Shift7 r; Shift21 := Shift21 r; Shift30 := Shift30 r; Shift90 := Shift90
     r; Shift180 := Shift180 r; Shift365 := Shift365 r; UpdatedAt := UpdatedAt r |}.

Definition set_Shift7 (x : float64) (r : t) : t :=
  {| High := High r; Low := Low r; Average := Average r; Shift := Shift r; Shift3 :=
     Shift3 r; Shift7 := x; Shift21 := Shift21 r; Shift30 := Shift30 r; Shift90 :=
     Shift90 r; Shift180 := Shift180 r; Shift365 := Shift365 r; UpdatedAt := UpdatedAt r
     |}.

Definition set_Shift21 (x : float64) (r : t) : t :=
  {| High := High r; Low := Low r; Average := Average r; Shift := Shift r; Shift3 :=
     Shift3 r; Shift7 := Shift7 r; Shift21 := x; Shift30 := Shift30 r; Shift90 :=
     Shift90 r; Shift180 := Shift180 r; Shift365 := Shift365 r; UpdatedAt := UpdatedAt r
     |}.

Definition set_Shift30 (x : float64) (r : t) : t :=
  {| High := High r; Low := Low r; Average := Average r; Shift := Shift r; Shift3 :=
     Shift3 r; Shift7 := Shift7 r; Shift21 := Shift21 r; Shift30 := x; Shift90 :=
     Shift90 r; Shift180 := Shift180 r; Shift365 := Shift365 r; UpdatedAt := UpdatedAt r
     |}.

Definition set_Shift90 (x : float64) (r : t) : t :=
  {| High := High r; Low := Low r; Average := Average r; Shift := Shift r; Shift3 :=
     Shift3 r; Shift7 := Shift7 r; Shift21 := Shift21 r; Shift30 := Shift30 r; Shift90
     := x; Shift180 := Shift180 r; Shift365 := Shift365 r; UpdatedAt := UpdatedAt r |}.

Definition set_Shift180 (x : float64) (r : t) : t :=
  {| High := High r; Low := Low r; Average := Average r; Shift := Shift r; Shift3 :=
     Shift3 r; Shift7 := Shift7 r; Shift21 := Shift21 r; Shift30 := Shift30 r; Shift90
     := Shift90 r; Shift180 := x; Shift365 := Shift365 r; UpdatedAt := UpdatedAt r |}.

Definition set_Shift365 (x : float64) (r : t) : t :=
  {| High := High r; Low := Low r; Average := Average r; Shift := Shift r; Shift3 :=
     Shift3 r; Shift7 := Shift7 r; Shift21 := Shift21 r; Shift30 := Shift30 r; Shift90
     := Shift90 r; Shift180 := Shift180 r; Shift365 := x; UpdatedAt := UpdatedAt r |}.

Definition set_UpdatedAt (x : string) (r : t) : t :=
  {| High := High r; Low := Low r; Average := Average r; Shift := Shift r; Shift3 :=
     Shift3 r; Shift7 := Shift7 r; Shift21 := Shift21 r; Shift30 := Shift30 r; Shift90
     := Shift90 r; Shift180 := Shift180 r; Shift365 := Shift365 r; UpdatedAt := x |}.

Definition fieldsOf : fields :=
  [ ("high", inField High set_High storeFloat64);
    ("low", inField Low set_Low storeFloat64);
    ("average", inField Average set_Average storeFloat64);
    ("shift", inField Shift set_Shift storeFloat64);
    ("shift_3", inField Shift3 set_Shift3 storeFloat64);
    ("shift_7", inField Shift7 set_Shift7 storeFloat64);
    ("shift_21", inField Shift21 set_Shift21 storeFloat64);
    ("shift_30", inField Shift30 set_Shift30 storeFloat64);
    ("shift_90", inField Shift90 set_Shift90 storeFloat64);
    ("shift_180", inField Shift180 set_Shift180 storeFloat64);
    ("shift_365", inField Shift365 set_Shift365 storeFloat64);
    ("updated_at", inField UpdatedAt set_UpdatedAt storeString) ].

Definition unmarshal : store t := storeStruct fieldsOf.

End Prices.

(** the type of [Data.PriceData.PriceData.Data] *)
Module Listing.

Record t := {
  Listings : list json;
  Prices : Prices.t
}.

Definition zero : t :=
  {| Listings := [];
     Prices := Prices.zero |}.

Definition set_Listings (x : list json) (r : t) : t :=
  {| Listings := x; Prices := Prices r |}.

Definition set_Prices (x : Prices.t) (r : t) : t :=
  {| Listings := Listings r; Prices := x |}.

Definition fieldsOf : fields :=
  [ ("listings", inField Listings set_Listings storeSlice);
    ("prices", inField Prices set_Prices Prices.unmarshal) ].

Definition unmarshal : store t := storeStruct fieldsOf.

End Listing.

(** the type of [Data.PriceData.PriceData] *)
Module Quote.

Record t := {
  Status : string;
  Data : Listing.t
}.

Definition zero : t :=
  {| Status := EmptyString;
     Data := Listing.zero |}.

Definition set_Status (x : string) (r : t) : t :=
  {| Status := x; Data := Data r |}.

Definition set_Data (x : Listing.t) (r : t) : t :=
  {| Status := Status r; Data := x |}.

Definition fieldsOf : fields :=
  [ ("status", inField Status set_Status storeString);
    ("data", inField Data set_Data Listing.unmarshal) ].

Definition unmarshal : store t := storeStruct fieldsOf.

End Quote.

(** the type of [Data.PriceData] *)
Module Print.

Record t := {
  Name : string;
  PrintTag : string;
  Rarity : string;
  PriceData : Quote.t
}.

Definition zero : t :=
  {| Name := EmptyString;
     PrintTag := EmptyString;
     Rarity := EmptyString;
     PriceData := Quote.zero |}.

Definition set_Name (x : string) (r : t) : t :=
  {| Name := x; PrintTag := PrintTag r; Rarity := Rarity r; PriceData := PriceData r |}.

Definition set_PrintTag (x : string) (r : t) : t :=
  {| Name := Name r; PrintTag := x; Rarity := Rarity r; PriceData := PriceData r |}.

Definition set_Rarity (x : string) (r : t) : t :=
  {| Name := Name r; PrintTag := PrintTag r; Rarity := x; PriceData := PriceData r |}.

Definition set_PriceData (x : Quote.t) (r : t) : t :=
  {| Name := Name r; PrintTag := PrintTag r; Rarity := Rarity r; PriceData := x |}.

Definition fieldsOf : fields :=
  [ ("name", inField Name set_Name storeString);
    ("print_tag", inField PrintTag set_PrintTag storeString);
    ("rarity", inField Rarity set_Rarity storeString);
    ("price_data", inField PriceData set_PriceData Quote.unmarshal) ].

Definition unmarshal : store t := storeStruct fieldsOf.

End Print.

(** the type of [Data] *)
Module Card.

Record t := {
  Name : string;
  CardType : string;
  Property : json;
  Family : string;
  Type_ : string;
  PriceData : Print.t
}.

Definition zero : t :=
  {| Name := EmptyString;
     CardType := EmptyString;
     Property := JNull;
     Family := EmptyString;
     Type_ := EmptyString;
     PriceData := Print.zero |}.

Definition set_Name (x : string) (r : t) : t :=
  {| Name := x; CardType := CardType r; Property := Property r; Family := Family r;
     Type_ := Type_ r; PriceData := PriceData r |}.

Definition set_CardType (x : string) (r : t) : t :=
  {| Name := Name r; CardType := x; Property := Property r; Family := Family r; Type_ :=
     Type_ r; PriceData := PriceData r |}.

Definition set_Property (x : json) (r : t) : t :=
  {| Name := Name r; CardType := CardType r; Property := x; Family := Family r; Type_ :=
     Type_ r; PriceData := PriceData r |}.

Definition set_Family (x : string) (r : t) : t :=
  {| Name := Name r; CardType := CardType r; Property := Property r; Family := x; Type_
     := Type_ r; PriceData := PriceData r |}.

Definition set_Type_ (x : string) (r : t) : t :=
  {| Name := Name r; CardType := CardType r; Property := Property r; Family := Family r;
     Type_ := x; PriceData := PriceData r |}.

Definition set_PriceData (x : Print.t) (r : t) : t :=
  {| Name := Name r; CardType := CardType r; Property := Property r; Family := Family r;
     Type_ := Type_ r; PriceData := x |}.

Definition fieldsOf : fields :=
  [ ("name", inField Name set_Name storeString);
    ("card_type", inField CardType set_CardType storeString);
    ("property", inField Property set_Property storeInterface);
    ("family", inField Family set_Family storeString);
    ("type", inField Type_ set_Type_ storeString);
    ("price_data", inField PriceData set_PriceData Print.unmarshal) ].

Definition unmarshal : store t := storeStruct fieldsOf.

End Card.

Record t := {
  Status : string;
  Data : Card.t
}.

Definition zero : t :=
  {| Status := EmptyString;
     Data := Card.zero |}.

Definition set_Status (x : string) (r : t) : t :=
  {| Status := x; Data := Data r |}.

Definition set_Data (x : Card.t) (r : t) : t :=
  {| Status := Status r; Data := x |}.

Definition fieldsOf : fields :=
  [ ("status", inField Status set_Status storeString);
    ("data", inField Data set_Data Card.unmarshal) ].

Definition unmarshal : store t := storeStruct fieldsOf.

End ygoPricesPriceForPrintTagResponse.

(** *** [sendMessageReqBody] *)
Module sendMessageReqBody.

Record t := {
  ChatID : Z;
  Text : string
}.

End sendMessageReqBody.

Module Ygo := ygoPricesPriceForPrintTagResponse.

(** [json.NewDecoder(r).Decode(target)]: an empty stream is [io.EOF], a
    stream that does not start with a JSON value is an error
    ([SyntaxError] stands for a syntax error and for the
    [io.ErrUnexpectedEOF] of a value cut short alike); otherwise the value
    is stored into the target. *)
Definition Decode {T : Type} (st : store T) (target : T) (data : string)
  : T * option error :=
  match readValue data with
  | Some v => st v target
  | None =>
    match skipSpace data with
    | EmptyString => (target, Some EOF)
    | _ => (target, Some SyntaxError)
    end
  end.

(** [json.Marshal] of a [sendMessageReqBody] cannot fail: the struct holds
    an int64 and a string.  The bytes are not modelled; they are kept as
    the value they encode. *)
Inductive jsonBytes :=
| Marshalled (v : sendMessageReqBody.t).

Definition Marshal (v : sendMessageReqBody.t) : jsonBytes * option error :=
  (Marshalled v, None).

(** ** Package [net/http] and the trace of outbound calls *)

Module http.

Record Response := {
  Status : string;
  StatusCode : Z;
  Body : string
}.

Definition StatusOK : Z := 200.

End http.

(** One event per call of [http.Get] and [http.Post], in program order. *)
Inductive event :=
| Get (url : string)
| Post (url contentType : string) (body : jsonBytes).

(** A computation returns a value and the calls it made. *)
Definition IO (A : Type) : Type := A * list event.

Definition ret {A : Type} (a : A) : IO A := (a, []).

Definition bind {A B : Type} (m : IO A) (k : A -> IO B) : IO B :=
  let (a, t1) := m in
  let (b, t2) := k a in
  (b, (t1 ++ t2)%list).

Notation "x <- m ;; k" := (bind m (fun x => k))
  (at level 61, m at next level, right associativity).
Notation "m ;;; k" := (bind m (fun _ => k))
  (at level 61, right associativity).

Definition trace {A : Type} (m : IO A) : list event := snd m.

Section Bot.

(** What the program does not decide: the case tables of [unicode], the
    bot token read from the environment at start-up, and the answer of
    the network to each request. *)
Variable unicode_ToLower : rune -> rune.
Variable telegramBotApiToken : string.
Variable net_Get : string -> error + http.Response.
Variable net_Post : string -> string -> jsonBytes -> error + http.Response.

Definition http_Get (url : string) : IO (error + http.Response) :=
  (net_Get url, [Get url]).

Definition http_Post (url contentType : string) (body : jsonBytes)
  : IO (error + http.Response) :=
  (net_Post url contentType body, [Post url contentType body]).

(** func sendReply(chatID int64, text string) error.  The URL is built by
    [fmt.Sprintf] with the verb [%s], which writes the token as it is. *)
Definition sendReply (chatID : Z) (text : string) : IO (option error) :=
  let reqBody := {| sendMessageReqBody.ChatID := chatID; sendMessageReqBody.Text := text |} in
  match Marshal reqBody with
  | (_, Some err) => ret (Some err)
  | (reqBytes, None) =>
    let botApiUrl := "https://api.telegram.org/bot" ++ telegramBotApiToken ++ "/sendMessage" in
    r <- http_Post botApiUrl "application/json" reqBytes ;;
    match r with
    | inl err => ret (Some err)
    | inr res =>
      if negb (http.StatusCode res =? http.StatusOK)
      then ret (Some (errorString ("unexpected status" ++ http.Status res)))
      else ret None
    end
  end.

(** func fetchCardPriceByPrintTag(printTag string): a pointer to the
    decoded response (nil as [None]) and an error (nil as [None]). *)
Definition fetchCardPriceByPrintTag (printTag : string)
  : IO (option Ygo.t * option error) :=
  r <- http_Get ("https://yugiohprices.com/api/price_for_print_tag/" ++ printTag) ;;
  match r with
  | inl err1 => ret (None, Some err1)
  | inr resp =>
    match Decode Ygo.unmarshal Ygo.zero (http.Body resp) with
    | (_, Some err) => ret (None, Some err)
    | (response, None) =>
      if String.eqb (Ygo.Status response) "success"
      then ret (Some response, None)
      else ret (None, None)
    end
  end.

(** func convertYgoPricesPriceForPrintTagResponseToReply(body) string *)
Definition convertYgoPricesPriceForPrintTagResponseToReply (body : Ygo.t) : string :=
  let prices :=
    Ygo.Listing.Prices (Ygo.Quote.Data (Ygo.Print.PriceData (Ygo.Card.PriceData (Ygo.Data body)))) in
  let high := Ygo.Prices.High prices in
  let average := Ygo.Prices.Average prices in
  let low := Ygo.Prices.Low prices in
  Sprintf ("Prices" ++ LF ++ "High :$%.2f" ++ LF ++ "Average: $%.2f" ++ LF ++ "Low: $%.2f")
    [high; average; low].

(** The body of [webhookHandler] once the update is decoded (lines 150 to
    167): the command is looked for in the lower-cased text, the print tag
    is taken from the text as it was sent.  The error [sendReply] returns
    is dropped. *)
Definition handleUpdate (body : webhookReqBody.t) : IO unit :=
  let Text := webhookReqBody.Message.Text (webhookReqBody.Message body) in
  let ID := webhookReqBody.Chat.ID (webhookReqBody.Message.Chat (webhookReqBody.Message body)) in
  let text := ToLower unicode_ToLower Text in
  if Contains text "/priceprinttag" then
    let parts := Split Text " " in
    if (List.length parts <? 2)%nat then
      sendReply ID "Error fetching card price!" ;;; ret tt
    else
      let printTag := nth 1 parts EmptyString in
      p <- fetchCardPriceByPrintTag printTag ;;
      match p with
      | (Some response, None) =>
        let reply := convertYgoPricesPriceForPrintTagResponseToReply response in
        sendReply ID reply ;;; ret tt
      | _ => sendReply ID "Error fetching card price!" ;;; ret tt
      end
  else
    sendReply ID "Invalid command!" ;;; ret tt.

(** func webhookHandler(res http.ResponseWriter, req *http.Request), on
    the request's body.  Nothing is written to [res]; the calls to the
    logger are not part of the trace. *)
Definition webhookHandler (reqBody : string) : IO unit :=
  match Decode webhookReqBody.unmarshal webhookReqBody.zero reqBody with
  | (_, Some err) => ret tt
  | (body, None) => handleUpdate body
  end.

End Bot.

(** ** Reading a trace *)

Definition command : string := "/priceprinttag".

Definition priceForPrintTag : string :=
  "https://yugiohprices.com/api/price_for_print_tag/".

(** The URLs requested from the pricing service, in order: one per call of
    [fetchCardPriceByPrintTag], which asks for [priceForPrintTag ++ printTag]. *)
Definition lookups (tr : list event) : list string :=
  flat_map (fun e => match e with Get url => [url] | Post _ _ _ => [] end) tr.

Definition sendMessageUrl (token : string) : string :=
  "https://api.telegram.org/bot" ++ token ++ "/sendMessage".

(** The messages posted to the chat platform, in order. *)
Definition replies (tr : list event) : list sendMessageReqBody.t :=
  flat_map (fun e => match e with Get _ => [] | Post _ _ (Marshalled v) => [v] end) tr.

Definition reply (chatID : Z) (text : string) : sendMessageReqBody.t :=
  {| sendMessageReqBody.ChatID := chatID; sendMessageReqBody.Text := text |}.

(** The call that sends [text] to the chat [chatID]. *)
Definition posted (token : string) (chatID : Z) (text : string) : event :=
  Post (sendMessageUrl token) "application/json" (Marshalled (reply chatID text)).

(** The update a decoded webhook body stands for. *)
Definition update (text : string) (chatID : Z) : webhookReqBody.t :=
  {| webhookReqBody.Message :=
       {| webhookReqBody.Message.Text := text;
          webhookReqBody.Message.Chat := {| webhookReqBody.Chat.ID := chatID |} |} |}.

Definition textOf (body : webhookReqBody.t) : string :=
  webhookReqBody.Message.Text (webhookReqBody.Message body).

Definition chatOf (body : webhookReqBody.t) : Z :=
  webhookReqBody.Chat.ID (webhookReqBody.Message.Chat (webhookReqBody.Message body)).

Definition pricesOf (response : Ygo.t) : Ygo.Prices.t :=
  Ygo.Listing.Prices
    (Ygo.Quote.Data (Ygo.Print.PriceData (Ygo.Card.PriceData (Ygo.Data response)))).

(** No byte of [s] is a space: [strings.Split] with the separator " " returns
    [s] whole. *)
Fixpoint noSpace (s : string) : bool :=
  match s with
  | EmptyString => true
  | String c s' => negb (Ascii.eqb c " ") && noSpace s'
  end.

(** Two answers to a GET that differ at most in their status line: the same
    error, or the same body. *)
Definition sameBody (a b : error + http.Response) : Prop :=
  match a, b with
  | inl e, inl e' => e = e'
  | inr r, inr r' => http.Body r = http.Body r'
  | _, _ => False
  end.

(** ** The words of the specification *)

(** The three outcomes the specification gives the Pricing Client, and how
    the pair returned by [fetchCardPriceByPrintTag] is read as one of them:
    a non-nil error, a nil response without error, a response. *)
Inductive outcome :=
| PriceQuote (high average low : float64)
| NotFound
| TransportError (err : error).

Definition outcomeOf (p : option Ygo.t * option error) : outcome :=
  match p with
  | (_, Some err) => TransportError err
  | (None, None) => NotFound
  | (Some response, None) =>
    PriceQuote (Ygo.Prices.High (pricesOf response))
      (Ygo.Prices.Average (pricesOf response))
      (Ygo.Prices.Low (pricesOf response))
  end.

(** The reply the specification writes for a quote. *)
Definition quoteReply (high average low : float64) : string :=
  "Prices" ++ LF ++ "High :$" ++ FormatFloat_f high 2 ++ LF ++
  "Average: $" ++ FormatFloat_f average 2 ++ LF ++
  "Low: $" ++ FormatFloat_f low 2.

(** Whitespace-delimited tokens, as the specification's testable
    properties word the argument: the maximal runs of bytes that are not
    white space (space, tab, line feed, vertical tab, form feed, carriage
    return). *)
Definition isWhite (c : ascii) : bool :=
  let b := byteZ c in (b =? 32) || ((9 <=? b) && (b <=? 13)).

Fixpoint tokensFrom (cur : string) (s : string) : list string :=
  match s with
  | EmptyString =>
    match cur with
    | EmptyString => []
    | _ => [revString cur]
    end
  | String c s' =>
    if isWhite c then
      match cur with
      | EmptyString => tokensFrom EmptyString s'
      | _ => revString cur :: tokensFrom EmptyString s'
      end
    else tokensFrom (String c cur) s'
  end.

Definition whitespaceTokens (s : string) : list string := tokensFrom EmptyString s.

(** A body "that contains none of the expected message fields": an
    object, or null, in which each of [message], its [text], its [chat]
    and the chat's [id] is absent or null.  A member counts as one of
    these when the decoder may take its name for the field's. *)
Definition names (name key : string) : bool :=
  String.eqb name key || String.eqb (foldName name) (foldName key).

Definition isNull (v : json) : bool :=
  match v with
  | JNull => true
  | _ => false
  end.

Definition absentOrNull (name : string) (inner : json -> bool) (v : json) : bool :=
  match v with
  | JNull => true
  | JObject ms => forallb (fun m => negb (names name (fst m)) || inner (snd m)) ms
  | _ => false
  end.

Definition noChatFields (v : json) : bool := absentOrNull "id" isNull v.

Definition noMessageFields (v : json) : bool :=
  match v with
  | JNull => true
  | JObject ms =>
    forallb (fun m => (negb (names "text" (fst m)) || isNull (snd m)) &&
                      (negb (names "chat" (fst m)) || noChatFields (snd m))) ms
  | _ => false
  end.

Definition noUpdateFields (v : json) : bool := absentOrNull "message" noMessageFields v.

(** A store leaves the target as it is, without error. *)
Definition unchanged {T : Type} (st : store T) (v : json) : Prop :=
  forall cur, st v cur = (cur, None).

(** [unicode.ToLower] on ASCII: upper-case letters move down, the rest
    stays. *)
Definition lowersASCII (f : rune -> rune) : Prop :=
  forall r, 0 <= r < 128 -> f r = if (65 <=? r) && (r <=? 90) then r + 32 else r.

(** The first [k] bytes of [s] are bytes that no ASCII text holds. *)
Fixpoint highBytes (k : nat) (s : string) : Prop :=
  match k with
  | O => True
  | S k' =>
    match s with
    | EmptyString => False
    | String c s' => 128 <= byteZ c /\ highBytes k' s'
    end
  end.

(** A float64 that is a number: neither NaN nor an infinity. *)
Definition finite (x : float64) : bool :=
  match x with
  | S754_nan | S754_infinity _ => false
  | _ => true
  end.

(** A text in fixed-point notation with two decimals: an optional minus
    sign, the decimal digits of an integer, a point, two digits. *)
Definition twoDecimals (s : string) : Prop :=
  exists (neg : bool) (int : Z) (d1 d2 : ascii),
    s = (if neg then "-" else EmptyString) ++ decimal int ++ "." ++
        String d1 (String d2 EmptyString) /\
    isDigit d1 = true /\ isDigit d2 = true.

(** A store keeps a property of its target. *)
Definition preserves {T : Type} (P : T -> Prop) (st : store T) : Prop :=
  forall v cur, P cur -> P (fst (st v cur)).

(** The three prices the program reads are numbers. *)
Definition finitePrices (p : Ygo.Prices.t) : Prop :=
  finite (Ygo.Prices.High p) = true /\
  finite (Ygo.Prices.Average p) = true /\
  finite (Ygo.Prices.Low p) = true.

Definition finiteListing (l : Ygo.Listing.t) : Prop := finitePrices (Ygo.Listing.Prices l).
Definition finiteQuote (q : Ygo.Quote.t) : Prop := finiteListing (Ygo.Quote.Data q).
Definition finitePrint (p : Ygo.Print.t) : Prop := finiteQuote (Ygo.Print.PriceData p).
Definition finiteCard (c : Ygo.Card.t) : Prop := finitePrint (Ygo.Card.PriceData c).
Definition finiteResponse (r : Ygo.t) : Prop := finiteCard (Ygo.Data r).

(** ** Sample surroundings, for concrete runs *)

Definition quoted (s : string) : string := String DQ (s ++ String DQ EmptyString).

(** No rune is changed: enough for texts in ASCII, which never reach
    [unicode.ToLower]. *)
Definition keepRune : rune -> rune := fun r => r.

Definition sampleToken : string := "123456:TOKEN".

Definition ok (body : string) : error + http.Response :=
  inr {| http.Status := "200 OK"; http.StatusCode := 200; http.Body := body |}.

Definition unreachable_Get : string -> error + http.Response :=
  fun _ => inl (NetworkError "dial tcp: no route to host").

Definition accepting_Post : string -> string -> jsonBytes -> error + http.Response :=
  fun _ _ _ => ok "{}".

(** A price response with high 10.5, average 7.25, low 3.0. *)
Definition samplePrices : string :=
  "{" ++ quoted "status" ++ ":" ++ quoted "success" ++ "," ++
  quoted "data" ++ ":{" ++ quoted "price_data" ++ ":{" ++ quoted "price_data" ++ ":{" ++
  quoted "data" ++ ":{" ++ quoted "prices" ++ ":{" ++
  quoted "high" ++ ":10.5," ++ quoted "average" ++ ":7.25," ++ quoted "low" ++ ":3.0" ++
  "}}}}}}".

Definition pricing_Get : string -> error + http.Response :=
  fun _ => ok samplePrices.

(** The same prices beside a number too large for a float64, once in the
    [interface{}] field [property], once in the slice [listings]. *)
Definition overflowingProperty : string :=
  "{" ++ quoted "status" ++ ":" ++ quoted "success" ++ "," ++
  quoted "data" ++ ":{" ++ quoted "property" ++ ":1e999," ++
  quoted "price_data" ++ ":{" ++ quoted "price_data" ++ ":{" ++
  quoted "data" ++ ":{" ++ quoted "prices" ++ ":{" ++
  quoted "high" ++ ":10.5," ++ quoted "average" ++ ":7.25," ++ quoted "low" ++ ":3.0" ++
  "}}}}}}".

Definition overflowingListing : string :=
  "{" ++ quoted "status" ++ ":" ++ quoted "success" ++ "," ++
  quoted "data" ++ ":{" ++ quoted "price_data" ++ ":{" ++ quoted "price_data" ++ ":{" ++
  quoted "data" ++ ":{" ++ quoted "listings" ++ ":[{" ++ quoted "price" ++ ":[1e999]}]," ++
  quoted "prices" ++ ":{" ++
  quoted "high" ++ ":10.5," ++ quoted "average" ++ ":7.25," ++ quoted "low" ++ ":3.0" ++
  "}}}}}}".

(** The body Telegram posts for the message [text] in the chat 42. *)
Definition updateBody (text : string) : string :=
  "{" ++ quoted "update_id" ++ ":1," ++ quoted "message" ++ ":{" ++
  quoted "text" ++ ":" ++ quoted text ++ "," ++
  quoted "chat" ++ ":{" ++ quoted "id" ++ ":42}}}".

(** A response the service gives for a print tag it does not know. *)
Definition failing_Get : string -> error + http.Response :=
  fun _ => ok ("{" ++ quoted "status" ++ ":" ++ quoted "fail" ++ "}").

(** [unicode.ToLower] as it is on ASCII, and the identity elsewhere. *)
Definition asciiToLower : rune -> rune :=
  fun r => if (65 <=? r) && (r <=? 90) then r + 32 else r.

(** The sample prices under the status 404. *)
Definition notFound_Get : string -> error + http.Response :=
  fun _ => inr {| http.Status := "404 Not Found"; http.StatusCode := 404;
                  http.Body := samplePrices |}.

(** * Properties *)

(** ** The library models on small inputs *)

Example Split_on_spaces :
  Split "/priceprinttag SDK-001" " " = ["/priceprinttag"; "SDK-001"] /\
  Split "a  b " " " = ["a"; EmptyString; "b"; EmptyString] /\
  Split EmptyString " " = [EmptyString].
Proof. repeat split. Qed.

Example ToLower_ascii :
  ToLower keepRune "Hey /PricePrintTag X-1" = "hey /priceprinttag x-1".
Proof. reflexivity. Qed.

Example Contains_command :
  Contains "hey /priceprinttag x-1" command = true /\
  Contains "/price printtag" command = false.
Proof. split; reflexivity. Qed.

(** 0.125 and 0.375 lie half way between two texts: the even one is taken. *)
Example FormatFloat_f_ties :
  FormatFloat_f (f64 1 (-3)) 2 = "0.12" /\
  FormatFloat_f (f64 3 (-3)) 2 = "0.38" /\
  FormatFloat_f (f64 (-1) (-10)) 2 = "-0.00".
Proof. repeat split; vm_compute; reflexivity. Qed.

Example ParseFloat64_sample :
  ParseFloat64 "10.5" = Some (f64 21 (-1)) /\
  ParseFloat64 "7.25" = Some (f64 29 (-2)) /\
  ParseFloat64 "3.0" = Some (f64 3 0) /\
  ParseFloat64 "1e999" = None.
Proof. repeat split; vm_compute; reflexivity. Qed.

Example readValue_sample :
  readValue " {} trailing" = Some (JObject []) /\
  readValue "[1,]" = None /\
  readValue (quoted "aé\n") =
  Some (JString (String "a" (String (byteOf 195) (String (byteOf 169) LF)))).
Proof. repeat split; vm_compute; reflexivity. Qed.

(** ** The reader of JSON values is total

    The readers recurse on fuel.  What a reader leaves is shorter than what
    it was given, so the fuel [readValue] starts with is never used up:
    [None] from [readValue] always means that the stream does not start
    with a JSON value. *)

Lemma andThen_scanned {A B : Type} (r : scanned A) (k : A -> string -> scanned B)
    (b : B) (rest' : string) :
  andThen r k = Scanned b rest' ->
  exists a rest, r = Scanned a rest /\ k a rest = Scanned b rest'.
Proof.
  destruct r as [a rest | |]; simpl; try discriminate. intros H. exists a, rest. auto.
Qed.

Lemma andThen_not_exhausted {A B : Type} (r : scanned A) (k : A -> string -> scanned B) :
  r <> Exhausted ->
  (forall a rest, r = Scanned a rest -> k a rest <> Exhausted) ->
  andThen r k <> Exhausted.
Proof.
  destruct r as [a rest | |]; simpl; intros Hr Hk.
  - apply Hk. reflexivity.
  - discriminate.
  - contradiction.
Qed.

Lemma skipSpace_length (s : string) : (String.length (skipSpace s) <= String.length s)%nat.
Proof.
  induction s as [| c s IH]; simpl; [lia |]. destruct (isSpace c); simpl; lia.
Qed.

Lemma dropBytes_length (n : nat) (s : string) :
  String.length (dropBytes n s) = (String.length s - n)%nat.
Proof.
  revert s. induction n as [| n IH]; intros s; simpl; [lia |].
  destruct s as [| c s]; simpl; [reflexivity | apply IH].
Qed.

Lemma DecodeRuneInString_width (s : string) :
  s <> EmptyString -> (1 <= snd (DecodeRuneInString s))%nat.
Proof.
  destruct s as [| c0 s1]; [congruence |]. intros _. unfold DecodeRuneInString.
  repeat match goal with
         | |- context [if ?b then _ else _] => destruct b
         | |- context [match ?x with _ => _ end] => destruct x
         end; simpl; lia.
Qed.

Lemma getu4_length (s rest : string) (v : Z) :
  getu4 s = Some (v, rest) -> String.length s = (String.length rest + 6)%nat.
Proof.
  unfold getu4.
  repeat match goal with
         | |- context [match ?x with _ => _ end] => destruct x
         end; try discriminate.
  intros H; injection H as _ <-. simpl. lia.
Qed.

Lemma consTo_scanned (p : string) (r : scanned string) (t rest : string) :
  consTo p r = Scanned t rest -> exists t', r = Scanned t' rest.
Proof.
  unfold consTo. intros H. apply andThen_scanned in H.
  destruct H as [a [rest0 [Hr Hk]]]. injection Hk as _ <-. exists a. exact Hr.
Qed.

Lemma consTo_not_exhausted (p : string) (r : scanned string) :
  r <> Exhausted -> consTo p r <> Exhausted.
Proof.
  destruct r; simpl; congruence.
Qed.

Lemma readString_shorter (fuel : nat) :
  forall s t rest, readString fuel s = Scanned t rest ->
                   (String.length rest < String.length s)%nat.
Proof.
  induction fuel as [| fuel IH]; intros s t rest; simpl; [discriminate |].
  destruct s as [| c s']; [discriminate |].
  destruct (Ascii.eqb c DQ).
  { intros H; injection H as _ <-. simpl. lia. }
  destruct (Ascii.eqb c "\").
  { destruct s' as [| e s'']; [discriminate |].
    destruct (Ascii.eqb e "u").
    - destruct (getu4 (String c (String e s''))) as [[rr rest0] |] eqn:Hu; [| discriminate].
      apply getu4_length in Hu.
      destruct (isSurrogate rr).
      + destruct (getu4 rest0) as [[rr1 rest1] |] eqn:Hu1.
        * apply getu4_length in Hu1.
          destruct (Z.eqb _ _); intros H; apply consTo_scanned in H;
            destruct H as [t' H]; apply IH in H; lia.
        * intros H; apply consTo_scanned in H; destruct H as [t' H]; apply IH in H; lia.
      + intros H; apply consTo_scanned in H; destruct H as [t' H]; apply IH in H; lia.
    - destruct (simpleEscape e); [| discriminate].
      intros H; apply consTo_scanned in H; destruct H as [t' H]; apply IH in H.
      simpl. lia. }
  destruct (Z.ltb (byteZ c) 32); [discriminate |].
  destruct (Z.ltb (byteZ c) RuneSelf).
  { intros H; apply consTo_scanned in H; destruct H as [t' H]; apply IH in H. simpl. lia. }
  pose proof (DecodeRuneInString_width (String c s') ltac:(discriminate)) as Hw.
  destruct (DecodeRuneInString (String c s')) as [rr size]. simpl in Hw.
  intros H; apply consTo_scanned in H; destruct H as [t' H]; apply IH in H.
  rewrite dropBytes_length in H. lia.
Qed.

Lemma readString_fuel (fuel : nat) :
  forall s, (String.length s < fuel)%nat -> readString fuel s <> Exhausted.
Proof.
  induction fuel as [| fuel IH]; intros s Hlen; [lia |]. simpl.
  destruct s as [| c s']; [discriminate |]. simpl in Hlen.
  destruct (Ascii.eqb c DQ); [discriminate |].
  destruct (Ascii.eqb c "\").
  { destruct s' as [| e s'']; [discriminate |].
    destruct (Ascii.eqb e "u").
    - destruct (getu4 (String c (String e s''))) as [[rr rest0] |] eqn:Hu; [| discriminate].
      apply getu4_length in Hu. simpl in Hu, Hlen.
      destruct (isSurrogate rr).
      + destruct (getu4 rest0) as [[rr1 rest1] |] eqn:Hu1.
        * apply getu4_length in Hu1.
          destruct (Z.eqb _ _); apply consTo_not_exhausted, IH; lia.
        * apply consTo_not_exhausted, IH; lia.
      + apply consTo_not_exhausted, IH; lia.
    - destruct (simpleEscape e); [| discriminate].
      apply consTo_not_exhausted, IH. simpl in Hlen. lia. }
  destruct (Z.ltb (byteZ c) 32); [discriminate |].
  destruct (Z.ltb (byteZ c) RuneSelf).
  { apply consTo_not_exhausted, IH. lia. }
  pose proof (DecodeRuneInString_width (String c s') ltac:(discriminate)) as Hw.
  destruct (DecodeRuneInString (String c s')) as [rr size]. simpl in Hw.
  apply consTo_not_exhausted, IH. rewrite dropBytes_length.
  change (String.length (String c s')) with (S (String.length s')). lia.
Qed.

Lemma spanDigits_length (s ds rest : string) :
  spanDigits s = (ds, rest) ->
  String.length s = (String.length ds + String.length rest)%nat.
Proof.
  revert ds rest. induction s as [| c s IH]; intros ds rest; simpl.
  - intros H; injection H as <- <-. reflexivity.
  - destruct (isDigit c).
    + destruct (spanDigits s) as [ds' rest'] eqn:Hs.
      intros H; injection H as <- <-. simpl. rewrite (IH ds' rest' eq_refl). lia.
    + intros H; injection H as <- <-. simpl. lia.
Qed.

Lemma readExp_length (acc s lit rest : string) :
  readExp acc s = Some (lit, rest) -> (String.length rest <= String.length s)%nat.
Proof.
  unfold readExp. destruct s as [| c r].
  - intros H; injection H as _ <-. simpl. lia.
  - destruct (isExpChar c).
    + destruct (match r with
                | EmptyString => (EmptyString, r)
                | String c1 r' =>
                  if isSignChar c1 then (String c1 EmptyString, r') else (EmptyString, r)
                end) as [sg r1] eqn:Hsg.
      assert (Hr1 : (String.length r1 <= String.length r)%nat).
      { destruct r as [| c1 r']; [injection Hsg as _ <-; simpl; lia |].
        destruct (isSignChar c1); injection Hsg as _ <-; simpl; lia. }
      destruct (spanDigits r1) as [ds r2] eqn:Hd. apply spanDigits_length in Hd.
      destruct ds; [discriminate |].
      intros H; injection H as _ <-. simpl in *. lia.
    + intros H; injection H as _ <-. lia.
Qed.

Lemma readFrac_length (acc s lit rest : string) :
  readFrac acc s = Some (lit, rest) -> (String.length rest <= String.length s)%nat.
Proof.
  unfold readFrac. destruct s as [| c r].
  - intros H; injection H as _ <-. simpl. lia.
  - destruct (Ascii.eqb c ".").
    + destruct (spanDigits r) as [ds r1] eqn:Hd. apply spanDigits_length in Hd.
      destruct ds; [discriminate |].
      intros H; apply readExp_length in H. simpl in *. lia.
    + intros H; apply readExp_length in H. exact H.
Qed.

Lemma readNumber_length (s lit rest : string) :
  readNumber s = Some (lit, rest) -> (String.length rest < String.length s)%nat.
Proof.
  unfold readNumber.
  destruct (match s with
            | EmptyString => (EmptyString, s)
            | String c r => if Ascii.eqb c "-" then (String c EmptyString, r) else (EmptyString, s)
            end) as [sg s1] eqn:Hsg.
  assert (Hs1 : (String.length s1 <= String.length s)%nat).
  { destruct s as [| c r]; [injection Hsg as _ <-; simpl; lia |].
    destruct (Ascii.eqb c "-"); injection Hsg as _ <-; simpl; lia. }
  destruct s1 as [| c r]; [discriminate |].
  destruct (Ascii.eqb c "0").
  - intros H; apply readFrac_length in H. simpl in *. lia.
  - destruct (isDigit c); [| discriminate].
    destruct (spanDigits r) as [ds r1] eqn:Hd. apply spanDigits_length in Hd.
    intros H; apply readFrac_length in H. simpl in *. lia.
Qed.

Lemma prefix_length (w s : string) :
  String.prefix w s = true -> (String.length w <= String.length s)%nat.
Proof.
  revert s. induction w as [| a w IH]; intros s; [simpl; lia |].
  destruct s as [| b s]; [discriminate |]. simpl.
  destruct (ascii_dec a b); [| discriminate].
  intros H; apply IH in H. lia.
Qed.

Lemma readLiteral_length (word : string) (v v' : json) (s rest : string) :
  (1 <= String.length word)%nat ->
  readLiteral word v s = Some (v', rest) -> (String.length rest < String.length s)%nat.
Proof.
  unfold readLiteral. intros Hw. destruct (String.prefix word s) eqn:Hp; [| discriminate].
  apply prefix_length in Hp. intros H; injection H as _ <-.
  rewrite dropBytes_length. lia.
Qed.

Lemma ofOption_scanned {A : Type} (r : option (A * string)) (a : A) (rest : string) :
  ofOption r = Scanned a rest -> r = Some (a, rest).
Proof.
  destruct r as [[a' rest'] |]; simpl; [| discriminate].
  intros H; injection H as <- <-. reflexivity.
Qed.

Lemma ofOption_not_exhausted {A : Type} (r : option (A * string)) : ofOption r <> Exhausted.
Proof.
  destruct r as [[a rest] |]; discriminate.
Qed.

(** What a reader leaves is shorter than what it was given. *)
Lemma parse_shorter (fuel : nat) :
  (forall d s v r, parseValue fuel d s = Scanned v r ->
                   (String.length r < String.length s)%nat) /\
  (forall d s ms r, parseMembers fuel d s = Scanned ms r ->
                    (String.length r < String.length s)%nat) /\
  (forall d s vs r, parseElems fuel d s = Scanned vs r ->
                    (String.length r < String.length s)%nat).
Proof.
  induction fuel as [| fuel [IHv [IHm IHe]]]; [repeat split; intros; discriminate |].
  repeat split.
  - intros d s v r. cbn [parseValue].
    pose proof (skipSpace_length s) as Hs.
    destruct (skipSpace s) as [| c r0] eqn:Hsk; [discriminate |].
    change (String.length (String c r0)) with (S (String.length r0)) in Hs.
    pose proof (skipSpace_length r0) as Hr0.
    destruct (Ascii.eqb c "{").
    { destruct (Z.ltb _ _); [discriminate |].
      destruct (skipSpace r0) as [| c1 r1] eqn:Hsk1; [discriminate |].
      change (String.length (String c1 r1)) with (S (String.length r1)) in Hr0.
      destruct (Ascii.eqb c1 "}").
      - intros H; injection H as _ <-. lia.
      - intros H. apply andThen_scanned in H. destruct H as [ms [rest [Hm Hk]]].
        injection Hk as _ <-. apply IHm in Hm. simpl in Hm. lia. }
    destruct (Ascii.eqb c "[").
    { destruct (Z.ltb _ _); [discriminate |].
      destruct (skipSpace r0) as [| c1 r1] eqn:Hsk1; [discriminate |].
      change (String.length (String c1 r1)) with (S (String.length r1)) in Hr0.
      destruct (Ascii.eqb c1 "]").
      - intros H; injection H as _ <-. lia.
      - intros H. apply andThen_scanned in H. destruct H as [vs [rest [He Hk]]].
        injection Hk as _ <-. apply IHe in He. simpl in He. lia. }
    destruct (Ascii.eqb c DQ).
    { intros H. apply andThen_scanned in H. destruct H as [str [rest [Hstr Hk]]].
      injection Hk as _ <-. apply readString_shorter in Hstr. lia. }
    destruct (Ascii.eqb c "-" || isDigit c).
    { intros H. apply andThen_scanned in H. destruct H as [lit [rest [Hn Hk]]].
      injection Hk as _ <-. apply ofOption_scanned, readNumber_length in Hn.
      simpl in Hn. lia. }
    destruct (Ascii.eqb c "t").
    { intros H. apply ofOption_scanned, readLiteral_length in H; simpl in *; lia. }
    destruct (Ascii.eqb c "f").
    { intros H. apply ofOption_scanned, readLiteral_length in H; simpl in *; lia. }
    destruct (Ascii.eqb c "n").
    { intros H. apply ofOption_scanned, readLiteral_length in H; simpl in *; lia. }
    discriminate.
  - intros d s ms r. cbn [parseMembers].
    pose proof (skipSpace_length s) as Hs.
    destruct (skipSpace s) as [| c r0] eqn:Hsk; [discriminate |].
    change (String.length (String c r0)) with (S (String.length r0)) in Hs.
    destruct (Ascii.eqb c DQ); [| discriminate].
    intros H. apply andThen_scanned in H. destruct H as [key [r1 [Hkey Hk]]].
    apply readString_shorter in Hkey.
    pose proof (skipSpace_length r1) as Hr1.
    destruct (skipSpace r1) as [| c2 r2] eqn:Hsk1; [discriminate |].
    change (String.length (String c2 r2)) with (S (String.length r2)) in Hr1.
    destruct (Ascii.eqb c2 ":"); [| discriminate].
    apply andThen_scanned in Hk. destruct Hk as [v [r3 [Hv Hk]]].
    apply IHv in Hv.
    pose proof (skipSpace_length r3) as Hr3.
    destruct (skipSpace r3) as [| c4 r4] eqn:Hsk3; [discriminate |].
    change (String.length (String c4 r4)) with (S (String.length r4)) in Hr3.
    destruct (Ascii.eqb c4 ",").
    + apply andThen_scanned in Hk. destruct Hk as [ms' [rest [Hm Hk]]].
      injection Hk as _ <-. apply IHm in Hm. lia.
    + destruct (Ascii.eqb c4 "}"); [| discriminate].
      injection Hk as _ <-. lia.
  - intros d s vs r. cbn [parseElems].
    intros H. apply andThen_scanned in H. destruct H as [v [r1 [Hv Hk]]].
    apply IHv in Hv.
    pose proof (skipSpace_length r1) as Hr1.
    destruct (skipSpace r1) as [| c2 r2] eqn:Hsk1; [discriminate |].
    change (String.length (String c2 r2)) with (S (String.length r2)) in Hr1.
    destruct (Ascii.eqb c2 ",").
    + apply andThen_scanned in Hk. destruct Hk as [vs' [rest [He Hk]]].
      injection Hk as _ <-. apply IHe in He. lia.
    + destruct (Ascii.eqb c2 "]"); [| discriminate].
      injection Hk as _ <-. lia.
Qed.

(** With two steps of fuel per byte no reader stops short. *)
Lemma parse_fuel (fuel : nat) :
  (forall d s, (2 * String.length s + 1 <= fuel)%nat -> parseValue fuel d s <> Exhausted) /\
  (forall d s, (2 * String.length s + 1 <= fuel)%nat -> parseMembers fuel d s <> Exhausted) /\
  (forall d s, (2 * String.length s + 2 <= fuel)%nat -> parseElems fuel d s <> Exhausted).
Proof.
  induction fuel as [| fuel [IHv [IHm IHe]]]; [repeat split; intros; lia |].
  destruct (parse_shorter fuel) as [Sv [Sm Se]].
  repeat split.
  - intros d s Hf. cbn [parseValue].
    pose proof (skipSpace_length s) as Hs.
    destruct (skipSpace s) as [| c r0] eqn:Hsk; [discriminate |].
    change (String.length (String c r0)) with (S (String.length r0)) in Hs.
    pose proof (skipSpace_length r0) as Hr0.
    destruct (Ascii.eqb c "{").
    { destruct (Z.ltb _ _); [discriminate |].
      destruct (skipSpace r0) as [| c1 r1] eqn:Hsk1; [discriminate |].
      destruct (Ascii.eqb c1 "}"); [discriminate |].
      apply andThen_not_exhausted; [apply IHm; lia | discriminate]. }
    destruct (Ascii.eqb c "[").
    { destruct (Z.ltb _ _); [discriminate |].
      destruct (skipSpace r0) as [| c1 r1] eqn:Hsk1; [discriminate |].
      destruct (Ascii.eqb c1 "]"); [discriminate |].
      apply andThen_not_exhausted; [apply IHe; lia | discriminate]. }
    destruct (Ascii.eqb c DQ).
    { apply andThen_not_exhausted; [apply readString_fuel; lia | discriminate]. }
    destruct (Ascii.eqb c "-" || isDigit c).
    { apply andThen_not_exhausted; [apply ofOption_not_exhausted | discriminate]. }
    destruct (Ascii.eqb c "t"); [apply ofOption_not_exhausted |].
    destruct (Ascii.eqb c "f"); [apply ofOption_not_exhausted |].
    destruct (Ascii.eqb c "n"); [apply ofOption_not_exhausted |].
    discriminate.
  - intros d s Hf. cbn [parseMembers].
    pose proof (skipSpace_length s) as Hs.
    destruct (skipSpace s) as [| c r0] eqn:Hsk; [discriminate |].
    change (String.length (String c r0)) with (S (String.length r0)) in Hs.
    destruct (Ascii.eqb c DQ); [| discriminate].
    apply andThen_not_exhausted; [apply readString_fuel; lia |].
    intros key r1 Hkey. apply readString_shorter in Hkey.
    pose proof (skipSpace_length r1) as Hr1.
    destruct (skipSpace r1) as [| c2 r2] eqn:Hsk1; [discriminate |].
    change (String.length (String c2 r2)) with (S (String.length r2)) in Hr1.
    destruct (Ascii.eqb c2 ":"); [| discriminate].
    apply andThen_not_exhausted; [apply IHv; lia |].
    intros v r3 Hv. apply Sv in Hv.
    pose proof (skipSpace_length r3) as Hr3.
    destruct (skipSpace r3) as [| c4 r4] eqn:Hsk3; [discriminate |].
    change (String.length (String c4 r4)) with (S (String.length r4)) in Hr3.
    destruct (Ascii.eqb c4 ",").
    + apply andThen_not_exhausted; [apply IHm; lia | discriminate].
    + destruct (Ascii.eqb c4 "}"); discriminate.
  - intros d s Hf. cbn [parseElems].
    apply andThen_not_exhausted; [apply IHv; lia |].
    intros v r1 Hv. apply Sv in Hv.
    pose proof (skipSpace_length r1) as Hr1.
    destruct (skipSpace r1) as [| c2 r2] eqn:Hsk1; [discriminate |].
    change (String.length (String c2 r2)) with (S (String.length r2)) in Hr1.
    destruct (Ascii.eqb c2 ",").
    + apply andThen_not_exhausted; [apply IHe; lia | discriminate].
    + destruct (Ascii.eqb c2 "]"); discriminate.
Qed.

(** [readValue] never stops short of fuel: it returns a value, or the
    stream does not start with one. *)
Lemma readValue_total (data : string) :
  parseValue (2 * String.length data + 2) 0 data <> Exhausted.
Proof.
  apply (parse_fuel (2 * String.length data + 2)). lia.
Qed.

(** ** Lower-casing keeps the command

    The handler looks for the command in the lower-cased text.  Whatever
    [unicode.ToLower] does outside ASCII, a text that holds
    "/priceprinttag" as it stands still holds it once lower-cased. *)

Lemma append_assoc (a b c : string) : (a ++ b) ++ c = a ++ (b ++ c).
Proof.
  induction a as [| x a IH]; simpl; [reflexivity | now rewrite IH].
Qed.

Lemma prefix_app (p s : string) :
  String.prefix p s = true <-> exists t, s = p ++ t.
Proof.
  revert s. induction p as [| a p IH]; intros s.
  - split; [intros _; exists s; reflexivity | intros _; destruct s; reflexivity].
  - destruct s as [| b s]; simpl.
    + split; [discriminate | intros [t H]; discriminate H].
    + destruct (ascii_dec a b) as [-> | Hne].
      * rewrite IH. split; intros [t H]; exists t; [now rewrite H | now injection H].
      * split; [discriminate | intros [t H]; injection H as H _; congruence].
Qed.

Lemma IndexFrom_nonneg (s p : string) (i : Z) :
  0 <= i -> (0 <=? IndexFrom i s p) = true <-> exists u t, s = u ++ p ++ t.
Proof.
  revert i. induction s as [| c s IH]; intros i Hi.
  - cbn [IndexFrom]. destruct (String.prefix p EmptyString) eqn:Hp.
    + split; [| intros _; apply Z.leb_le; lia].
      intros _. apply prefix_app in Hp. destruct Hp as [t Ht]. exists EmptyString, t. exact Ht.
    + split; [intros H; apply Z.leb_le in H; lia |].
      intros [u [t H]]. destruct u as [| x u]; [| discriminate H].
      simpl in H. assert (Hp' : String.prefix p EmptyString = true) by (apply prefix_app; eauto).
      congruence.
  - cbn [IndexFrom]. destruct (String.prefix p (String c s)) eqn:Hp.
    + split; [| intros _; apply Z.leb_le; lia].
      intros _. apply prefix_app in Hp. destruct Hp as [t Ht]. exists EmptyString, t. exact Ht.
    + rewrite (IH (i + 1)) by lia. split.
      * intros [u [t H]]. exists (String c u), t. simpl. now rewrite H.
      * intros [u [t H]]. destruct u as [| x u].
        -- simpl in H. assert (Hp' : String.prefix p (String c s) = true)
             by (apply prefix_app; eauto). congruence.
        -- simpl in H. injection H as _ H. eauto.
Qed.

Lemma Contains_iff (s p : string) :
  Contains s p = true <-> exists u t, s = u ++ p ++ t.
Proof.
  unfold Contains, Index. apply IndexFrom_nonneg. lia.
Qed.

Lemma lowerASCII_app (a b : string) : lowerASCII (a ++ b) = lowerASCII a ++ lowerASCII b.
Proof.
  induction a as [| x a IH]; simpl; [reflexivity | now rewrite IH].
Qed.

Lemma byteZ_range (c : ascii) : 0 <= byteZ c < 256.
Proof.
  unfold byteZ. pose proof (N_ascii_bounded c) as H. lia.
Qed.

Lemma byteOf_byteZ (c : ascii) : byteOf (byteZ c) = c.
Proof.
  unfold byteOf, byteZ. rewrite N2Z.id. apply ascii_N_embedding.
Qed.

Lemma firstInfo_high (b : Z) (sz : nat) (lo hi : Z) :
  firstInfo b = Some (sz, lo, hi) -> 128 <= lo.
Proof.
  unfold firstInfo.
  repeat match goal with
         | |- context [if ?c then _ else _] => destruct c
         end; intros H; try discriminate H; injection H as _ <- _; lia.
Qed.

(** The bytes of a rune after its first are not ASCII. *)
Lemma DecodeRuneInString_high (c : ascii) (rest : string) (r : rune) (w : nat) :
  DecodeRuneInString (String c rest) = (r, w) -> highBytes (w - 1) rest.
Proof.
  unfold DecodeRuneInString.
  destruct (byteZ c <? RuneSelf); [intros H; injection H as _ <-; exact I |].
  destruct (firstInfo (byteZ c)) as [[[sz lo] hi] |] eqn:Hf;
    [| intros H; injection H as _ <-; exact I].
  apply firstInfo_high in Hf.
  destruct (Nat.ltb _ _); [intros H; injection H as _ <-; exact I |].
  destruct rest as [| c1 s2]; [intros H; injection H as _ <-; exact I |].
  destruct ((byteZ c1 <? lo) || (hi <? byteZ c1)) eqn:H1;
    [intros H; injection H as _ <-; exact I |].
  apply orb_false_iff in H1. destruct H1 as [H1 _]. apply Z.ltb_ge in H1.
  destruct (Nat.leb sz 2).
  { intros H; injection H as _ <-. simpl. split; [lia | exact I]. }
  destruct s2 as [| c2 s3]; [intros H; injection H as _ <-; exact I |].
  destruct (isCont (byteZ c2)) eqn:H2; cbn [negb];
    [| intros H; injection H as _ <-; exact I].
  unfold isCont in H2. apply andb_true_iff in H2. destruct H2 as [H2 _].
  apply Z.leb_le in H2.
  destruct (Nat.leb sz 3).
  { intros H; injection H as _ <-. simpl. repeat split; lia. }
  destruct s3 as [| c3 s4]; [intros H; injection H as _ <-; exact I |].
  destruct (isCont (byteZ c3)) eqn:H3; cbn [negb];
    [| intros H; injection H as _ <-; exact I].
  unfold isCont in H3. apply andb_true_iff in H3. destruct H3 as [H3 _].
  apply Z.leb_le in H3.
  intros H; injection H as _ <-. simpl. repeat split; lia.
Qed.

Section MapLower.

Variable f : rune -> rune.
Hypothesis f_ascii : lowersASCII f.

(** [Map] writes what precedes an ASCII byte, then goes on from that byte. *)
Lemma MapFrom_until_ascii (u w : string) (c : ascii) :
  byteZ c < 128 ->
  forall k, highBytes k (u ++ String c w) ->
            exists out, MapFrom f k (u ++ String c w) = out ++ MapFrom f 0 (String c w).
Proof.
  intros Hc. induction u as [| a u IH]; intros k Hk.
  - destruct k as [| k]; [exists EmptyString; reflexivity |].
    simpl in Hk. lia.
  - destruct k as [| k].
    + change (String a u ++ String c w) with (String a (u ++ String c w)).
      cbn [MapFrom].
      destruct (DecodeRuneInString (String a (u ++ String c w))) as [r width] eqn:Hd.
      apply DecodeRuneInString_high in Hd.
      destruct (IH _ Hd) as [out Hout]. rewrite Hout.
      eexists. rewrite <- append_assoc. reflexivity.
    + simpl in Hk. destruct Hk as [_ Hk].
      destruct (IH _ Hk) as [out Hout]. exists out. exact Hout.
Qed.

Lemma MapFrom_lower_byte (c : ascii) (s : string) :
  byteZ c < 128 -> isUpperASCII c = false ->
  MapFrom f 0 (String c s) = String c (MapFrom f 0 s).
Proof.
  intros Hc Hup. cbn [MapFrom]. unfold DecodeRuneInString.
  assert (Hlt : (byteZ c <? RuneSelf) = true) by (apply Z.ltb_lt; exact Hc).
  rewrite Hlt. pose proof (byteZ_range c) as Hr.
  rewrite (f_ascii (byteZ c)) by lia.
  unfold isUpperASCII in Hup. rewrite Hup.
  assert (H0 : (byteZ c <? 0) = false) by (apply Z.ltb_ge; lia). rewrite H0.
  unfold EncodeRune.
  assert (H1 : ((0 <=? byteZ c) && (byteZ c <=? 127)) = true).
  { apply andb_true_iff. split; apply Z.leb_le; lia. }
  rewrite H1, byteOf_byteZ. reflexivity.
Qed.

Lemma MapFrom_command (t : string) :
  MapFrom f 0 (command ++ t) = command ++ MapFrom f 0 t.
Proof.
  unfold command. cbn [append].
  repeat (rewrite MapFrom_lower_byte by (vm_compute; reflexivity)).
  reflexivity.
Qed.

(** A text that holds the command holds it once lower-cased. *)
Lemma Contains_ToLower (s : string) :
  Contains s command = true -> Contains (ToLower f s) command = true.
Proof.
  intros H. apply Contains_iff in H. destruct H as [u [t ->]].
  apply Contains_iff. unfold ToLower.
  destruct (isASCII (u ++ command ++ t)).
  - destruct (negb (hasUpper (u ++ command ++ t))); [eauto |].
    rewrite !lowerASCII_app. change (lowerASCII command) with command. eauto.
  - unfold Map.
    destruct (MapFrom_until_ascii u ("priceprinttag" ++ t) "/"%char eq_refl 0%nat I)
      as [out Hout].
    change (String "/" ("priceprinttag" ++ t)) with (command ++ t) in Hout.
    rewrite Hout, MapFrom_command. eauto.
Qed.

End MapLower.

(** ** The text of a price reply *)

Lemma append_empty_r (s : string) : s ++ EmptyString = s.
Proof.
  induction s as [| c s IH]; simpl; [reflexivity | now rewrite IH].
Qed.

(** Running the format of [convertYgoPricesPriceForPrintTagResponseToReply]
    over its three operands gives the three lines of the specification,
    in the order high, average, low. *)
Lemma convert_is_quoteReply (response : Ygo.t) :
  convertYgoPricesPriceForPrintTagResponseToReply response =
  quoteReply (Ygo.Prices.High (pricesOf response))
    (Ygo.Prices.Average (pricesOf response))
    (Ygo.Prices.Low (pricesOf response)).
Proof.
  unfold convertYgoPricesPriceForPrintTagResponseToReply, quoteReply, Sprintf, LF.
  fold (pricesOf response).
  cbn -[FormatFloat_f]. rewrite append_empty_r. reflexivity.
Qed.

(** The two decimals: every number below 100 is written on two digits. *)
Lemma two_digits (k : Z) :
  0 <= k < 100 ->
  exists d1 d2 : ascii,
    padLeft 2 (decimal k) = String d1 (String d2 EmptyString) /\
    isDigit d1 = true /\ isDigit d2 = true.
Proof.
  intros Hk.
  assert (Hn : exists n : nat, (n < 100)%nat /\ k = Z.of_nat n).
  { exists (Z.to_nat k). split; lia. }
  destruct Hn as [n [Hn ->]]. clear Hk.
  do 100 (destruct n as [| n]; [vm_compute; eauto |]).
  lia.
Qed.

(** A float that is a number is written in fixed-point notation with two
    decimals. *)
Lemma FormatFloat_f_two_decimals (x : float64) :
  finite x = true -> twoDecimals (FormatFloat_f x 2).
Proof.
  intros Hfin.
  assert (Hfmt : forall neg n, twoDecimals (fmtF 2 neg n)).
  { intros neg n. unfold fmtF, twoDecimals.
    destruct (two_digits (n mod 10 ^ Z.of_nat 2)) as [d1 [d2 [Hp [H1 H2]]]].
    { change (10 ^ Z.of_nat 2) with 100. apply Z.mod_pos_bound. lia. }
    exists neg, (n / 10 ^ Z.of_nat 2), d1, d2. rewrite Hp. auto. }
  destruct x as [s | s | | s m e]; try discriminate Hfin; apply Hfmt.
Qed.

(** ** The prices a response decodes to are numbers

    [strconv.ParseFloat] returns a range error where the value would round
    to an infinity, and rounding never makes a NaN of a decimal. *)

Lemma shr_1_nonneg mrs : 0 <= shr_m mrs -> 0 <= shr_m (shr_1 mrs).
Proof.
  destruct mrs as [m r s]; simpl.
  destruct m as [| [p | p |] | [p | p |]]; simpl; lia.
Qed.

Lemma iter_shr_1_nonneg p mrs :
  0 <= shr_m mrs -> 0 <= shr_m (iter_pos shr_1 p mrs).
Proof.
  revert mrs. induction p as [p IH | p IH |]; intros mrs H; simpl.
  - apply IH, IH, shr_1_nonneg, H.
  - apply IH, IH, H.
  - apply shr_1_nonneg, H.
Qed.

Lemma shr_fexp_nonneg m e l :
  0 <= m -> 0 <= shr_m (fst (shr_fexp 53 1024 m e l)).
Proof.
  intros Hm. unfold shr_fexp, shr.
  assert (H0 : 0 <= shr_m (shr_record_of_loc m l)).
  { destruct l as [| []]; simpl; exact Hm. }
  destruct (fexp 53 1024 (Zdigits2 m + e) - e); simpl; auto.
  apply iter_shr_1_nonneg, H0.
Qed.

Lemma binary_round_aux_not_nan sx mx ex lx :
  0 <= mx -> binary_round_aux 53 1024 sx mx ex lx <> S754_nan.
Proof.
  intros Hm. unfold binary_round_aux.
  pose proof (shr_fexp_nonneg mx ex lx Hm) as H1.
  destruct (shr_fexp 53 1024 mx ex lx) as [mrs' e']. simpl in H1.
  assert (H2 : 0 <= round_nearest_even (shr_m mrs') (loc_of_shr_record mrs')).
  { unfold round_nearest_even. destruct (loc_of_shr_record mrs') as [| []]; try lia.
    destruct (Z.even (shr_m mrs')); lia. }
  pose proof (shr_fexp_nonneg _ e' loc_Exact H2) as H3.
  destruct (shr_fexp 53 1024 _ e' loc_Exact) as [mrs'' e'']. simpl in H3.
  destruct (shr_m mrs'') as [| m | m]; try discriminate; [| lia].
  destruct (e'' <=? 1024 - 53); discriminate.
Qed.

Lemma decimalToFloat64_not_nan neg m k : decimalToFloat64 neg m k <> S754_nan.
Proof.
  unfold decimalToFloat64. destruct m as [| p | p]; try discriminate.
  destruct (0 <=? k) eqn:Hk.
  - unfold binary_round. destruct (shl_align _ _ _) as [mz ez].
    apply binary_round_aux_not_nan. lia.
  - unfold SFdiv_core_binary.
    set (m' := match _ with Zpos _ => _ | Z0 => _ | Zneg _ => _ end).
    assert (Hm' : 0 <= m').
    { subst m'. destruct (0 - 0 - _); try lia. apply Z.shiftl_nonneg. lia. }
    pose proof (Z_div_mod m' (10 ^ (- k))) as Hdm.
    assert (Hpos : 10 ^ (- k) > 0) by (apply Z.leb_gt in Hk; apply Z.lt_gt, Z.pow_pos_nonneg; lia).
    destruct (Z.div_eucl m' (10 ^ (- k))) as [q r].
    specialize (Hdm Hpos). apply binary_round_aux_not_nan. nia.
Qed.

Lemma ParseFloat64_finite lit f : ParseFloat64 lit = Some f -> finite f = true.
Proof.
  unfold ParseFloat64.
  destruct (match lit with EmptyString => _ | String _ _ => _ end) as [neg s1].
  destruct (spanDigits s1) as [ip s2].
  destruct (match s2 with EmptyString => _ | String _ _ => _ end) as [fp s3].
  destruct (digitsValue 0 (ip ++ fp)) as [m |]; [| discriminate].
  destruct (match s3 with EmptyString => _ | String _ _ => _ end) as [e |]; [| discriminate].
  pose proof (decimalToFloat64_not_nan neg m (e - Z.of_nat (String.length fp))) as Hn.
  destruct (decimalToFloat64 neg m (e - Z.of_nat (String.length fp))); intros H;
    try discriminate; try (injection H as <-; reflexivity); contradiction.
Qed.

(** Stores that keep a property, field by field. *)

Section Preserve.

Context {T : Type} (P : T -> Prop).

Lemma byExactName_preserves (fs : fields) (key : string) (st : store T) :
  Forall (fun f => preserves P (snd f)) fs ->
  byExactName fs key = Some st -> preserves P st.
Proof.
  induction 1 as [| [name st'] fs Hst Hfs IH]; simpl; [discriminate |].
  destruct (String.eqb name key); [| exact IH].
  intros H; injection H as <-. exact Hst.
Qed.

Lemma byFoldedName_preserves (fs : fields) (key : string) (st : store T) :
  Forall (fun f => preserves P (snd f)) fs ->
  byFoldedName fs key = Some st -> preserves P st.
Proof.
  induction 1 as [| [name st'] fs Hst Hfs IH]; simpl; [discriminate |].
  destruct (String.eqb (foldName name) key); [| exact IH].
  intros H; injection H as <-. exact Hst.
Qed.

Lemma storeMembers_preserves (fs : fields) :
  Forall (fun f => preserves P (snd f)) fs ->
  forall ms cur, P cur -> P (fst (storeMembers fs ms cur)).
Proof.
  intros Hfs. induction ms as [| [key v] ms IH]; intros cur Hcur; [exact Hcur |].
  cbn [storeMembers].
  assert (H1 : P (fst match findField fs key with
                      | Some st => st v cur
                      | None => (cur, None)
                      end)).
  { unfold findField.
    destruct (byExactName fs key) as [st |] eqn:He.
    - apply (byExactName_preserves fs key st Hfs He), Hcur.
    - destruct (byFoldedName fs (foldName key)) as [st |] eqn:Hf; [| exact Hcur].
      apply (byFoldedName_preserves fs _ st Hfs Hf), Hcur. }
  destruct (match findField fs key with Some st => st v cur | None => (cur, None) end)
    as [cur1 e1].
  specialize (IH cur1 H1).
  destruct (storeMembers fs ms cur1) as [cur2 e2]. exact IH.
Qed.

Lemma storeStruct_preserves (fs : fields) :
  Forall (fun f => preserves P (snd f)) fs -> preserves P (storeStruct fs).
Proof.
  intros Hfs v cur Hcur. destruct v; try exact Hcur.
  apply storeMembers_preserves; assumption.
Qed.

End Preserve.

Lemma inField_preserves {T U : Type} (P : T -> Prop) (Q : U -> Prop)
    (get : T -> U) (set : U -> T -> T) (st : store U) :
  (forall cur, P cur -> Q (get cur)) ->
  (forall u cur, P cur -> Q u -> P (set u cur)) ->
  preserves Q st -> preserves P (inField get set st).
Proof.
  intros Hget Hset Hst v cur Hcur. unfold inField.
  specialize (Hst v (get cur) (Hget cur Hcur)).
  destruct (st v (get cur)) as [u e]. simpl in *. apply Hset; assumption.
Qed.

Lemma storeFloat64_finite : preserves (fun x => finite x = true) storeFloat64.
Proof.
  intros v cur Hcur. destruct v; try exact Hcur. simpl.
  destruct (ParseFloat64 lit) as [f |] eqn:Hp; [| exact Hcur].
  exact (ParseFloat64_finite lit f Hp).
Qed.

Lemma preserves_True {U : Type} (st : store U) : preserves (fun _ => True) st.
Proof. intros v cur _. exact I. Qed.

Ltac field_preserves P Q H :=
  first
    [ solve [ apply (inField_preserves P Q); [ | | exact H ];
              [ intros cur; unfold P; tauto
              | intros u [] ; unfold P; simpl; tauto ] ]
    | solve [ apply (inField_preserves P (fun _ => True)); [ | | apply preserves_True ];
              [ intros; exact I
              | intros u [] ; unfold P; simpl; tauto ] ] ].

Lemma Prices_unmarshal_finite : preserves finitePrices Ygo.Prices.unmarshal.
Proof.
  apply storeStruct_preserves. unfold Ygo.Prices.fieldsOf.
  repeat (apply Forall_cons;
          [ cbn [snd];
            field_preserves finitePrices (fun x : float64 => finite x = true) storeFloat64_finite
          | ]).
  apply Forall_nil.
Qed.

Lemma Listing_unmarshal_finite : preserves finiteListing Ygo.Listing.unmarshal.
Proof.
  apply storeStruct_preserves. unfold Ygo.Listing.fieldsOf.
  repeat (apply Forall_cons;
          [ cbn [snd]; field_preserves finiteListing finitePrices Prices_unmarshal_finite | ]).
  apply Forall_nil.
Qed.

Lemma Quote_unmarshal_finite : preserves finiteQuote Ygo.Quote.unmarshal.
Proof.
  apply storeStruct_preserves. unfold Ygo.Quote.fieldsOf.
  repeat (apply Forall_cons;
          [ cbn [snd]; field_preserves finiteQuote finiteListing Listing_unmarshal_finite | ]).
  apply Forall_nil.
Qed.

Lemma Print_unmarshal_finite : preserves finitePrint Ygo.Print.unmarshal.
Proof.
  apply storeStruct_preserves. unfold Ygo.Print.fieldsOf.
  repeat (apply Forall_cons;
          [ cbn [snd]; field_preserves finitePrint finiteQuote Quote_unmarshal_finite | ]).
  apply Forall_nil.
Qed.

Lemma Card_unmarshal_finite : preserves finiteCard Ygo.Card.unmarshal.
Proof.
  apply storeStruct_preserves. unfold Ygo.Card.fieldsOf.
  repeat (apply Forall_cons;
          [ cbn [snd]; field_preserves finiteCard finitePrint Print_unmarshal_finite | ]).
  apply Forall_nil.
Qed.

Lemma unmarshal_finite : preserves finiteResponse Ygo.unmarshal.
Proof.
  apply storeStruct_preserves. unfold Ygo.fieldsOf.
  repeat (apply Forall_cons;
          [ cbn [snd]; field_preserves finiteResponse finiteCard Card_unmarshal_finite | ]).
  apply Forall_nil.
Qed.

Lemma Decode_finite (data : string) :
  finitePrices (pricesOf (fst (Decode Ygo.unmarshal Ygo.zero data))).
Proof.
  unfold Decode. destruct (readValue data) as [v |].
  - apply (unmarshal_finite v Ygo.zero). repeat split.
  - destruct (skipSpace data); repeat split.
Qed.


(** ** Decoding a body without the message fields *)

Section Unchanged.

Context {T : Type}.

Lemma byExactName_names (fs : @fields T) (key : string) (st : store T) :
  byExactName fs key = Some st ->
  exists name, In (name, st) fs /\ names name key = true.
Proof.
  induction fs as [| [name st'] fs IH]; simpl; [discriminate |].
  destruct (String.eqb name key) eqn:He.
  - intros H; injection H as <-. exists name. split; [left; reflexivity |].
    unfold names. rewrite He. reflexivity.
  - intros H. destruct (IH H) as [name' [Hin Hn]]. exists name'. auto.
Qed.

Lemma byFoldedName_names (fs : @fields T) (key : string) (st : store T) :
  byFoldedName fs (foldName key) = Some st ->
  exists name, In (name, st) fs /\ names name key = true.
Proof.
  induction fs as [| [name st'] fs IH]; simpl; [discriminate |].
  destruct (String.eqb (foldName name) (foldName key)) eqn:He.
  - intros H; injection H as <-. exists name. split; [left; reflexivity |].
    unfold names. rewrite He. apply orb_true_r.
  - intros H. destruct (IH H) as [name' [Hin Hn]]. exists name'. auto.
Qed.

Lemma findField_names (fs : @fields T) (key : string) (st : store T) :
  findField fs key = Some st ->
  exists name, In (name, st) fs /\ names name key = true.
Proof.
  unfold findField. destruct (byExactName fs key) as [st' |] eqn:He.
  - intros H; injection H as <-. apply (byExactName_names fs key st' He).
  - apply byFoldedName_names.
Qed.

(** When every member leaves the target as it is, so does the object. *)
Lemma storeMembers_unchanged (fs : @fields T) (ms : list (string * json)) :
  (forall key v name st, In (key, v) ms -> In (name, st) fs ->
                         names name key = true -> unchanged st v) ->
  forall cur, storeMembers fs ms cur = (cur, None).
Proof.
  induction ms as [| [key v] ms IH]; intros H cur; [reflexivity |].
  cbn [storeMembers].
  assert (H1 : match findField fs key with
               | Some st => st v cur
               | None => (cur, None)
               end = (cur, None)).
  { destruct (findField fs key) as [st |] eqn:Hf; [| reflexivity].
    destruct (findField_names fs key st Hf) as [name [Hin Hn]].
    apply (H key v name st); [left; reflexivity | exact Hin | exact Hn]. }
  rewrite H1. rewrite IH; [reflexivity |].
  intros key' v' name st Hin. apply H. right. exact Hin.
Qed.

End Unchanged.

Lemma inField_unchanged {T U : Type} (get : T -> U) (set : U -> T -> T) (st : store U)
    (v : json) :
  (forall r, set (get r) r = r) -> unchanged st v -> unchanged (inField get set st) v.
Proof.
  intros Heta Hst cur. unfold inField. rewrite Hst, Heta. reflexivity.
Qed.

Lemma forallb_In {A : Type} (f : A -> bool) (l : list A) (x : A) :
  forallb f l = true -> In x l -> f x = true.
Proof.
  intros H Hin. rewrite forallb_forall in H. apply H, Hin.
Qed.

Lemma Chat_unchanged (v : json) :
  noChatFields v = true -> unchanged webhookReqBody.Chat.unmarshal v.
Proof.
  intros Hv cur. unfold webhookReqBody.Chat.unmarshal, storeStruct.
  destruct v as [| b | lit | str | vs | ms]; try discriminate Hv; [reflexivity |].
  apply storeMembers_unchanged. intros key x name st Hin Hf Hn.
  apply (forallb_In _ _ _ Hv) in Hin. cbn [fst snd] in Hin.
  destruct Hf as [Hf | []]. injection Hf as <- <-.
  rewrite Hn in Hin. cbn [negb orb] in Hin.
  apply inField_unchanged; [intros []; reflexivity |].
  destruct x; try discriminate Hin. intros c; reflexivity.
Qed.

Lemma Message_unchanged (v : json) :
  noMessageFields v = true -> unchanged webhookReqBody.Message.unmarshal v.
Proof.
  intros Hv cur. unfold webhookReqBody.Message.unmarshal, storeStruct.
  destruct v as [| b | lit | str | vs | ms]; try discriminate Hv; [reflexivity |].
  apply storeMembers_unchanged. intros key x name st Hin Hf Hn.
  apply (forallb_In _ _ _ Hv) in Hin. cbn [fst snd] in Hin.
  apply andb_true_iff in Hin. destruct Hin as [Htext Hchat].
  destruct Hf as [Hf | [Hf | []]]; injection Hf as <- <-.
  - rewrite Hn in Htext. cbn [negb orb] in Htext.
    apply inField_unchanged; [intros []; reflexivity |].
    destruct x; try discriminate Htext. intros c; reflexivity.
  - rewrite Hn in Hchat. cbn [negb orb] in Hchat.
    apply inField_unchanged; [intros []; reflexivity |].
    apply Chat_unchanged, Hchat.
Qed.

Lemma unmarshal_unchanged (v : json) :
  noUpdateFields v = true -> unchanged webhookReqBody.unmarshal v.
Proof.
  intros Hv cur. unfold webhookReqBody.unmarshal, storeStruct.
  destruct v as [| b | lit | str | vs | ms]; try discriminate Hv; [reflexivity |].
  apply storeMembers_unchanged. intros key x name st Hin Hf Hn.
  apply (forallb_In _ _ _ Hv) in Hin. cbn [fst snd] in Hin.
  destruct Hf as [Hf | []]. injection Hf as <- <-.
  rewrite Hn in Hin. cbn [negb orb] in Hin.
  apply inField_unchanged; [intros []; reflexivity |].
  apply Message_unchanged, Hin.
Qed.

(** ** The two leaf calls *)

Section Calls.

Variable telegramBotApiToken : string.
Variable net_Get : string -> error + http.Response.
Variable net_Post : string -> string -> jsonBytes -> error + http.Response.

(** [sendReply] makes one call, a POST of the message to the bot's URL,
    whatever the platform answers. *)
Lemma sendReply_trace (chatID : Z) (text : string) :
  trace (sendReply telegramBotApiToken net_Post chatID text) =
  [posted telegramBotApiToken chatID text].
Proof.
  unfold sendReply, http_Post, Marshal, bind, trace, ret; simpl.
  destruct (net_Post _ _ _) as [err | res]; simpl; [reflexivity |].
  destruct (negb _); reflexivity.
Qed.

(** [fetchCardPriceByPrintTag] makes one call, a GET of the print tag's
    URL, whatever the service answers. *)
Lemma fetch_trace (printTag : string) :
  trace (fetchCardPriceByPrintTag net_Get printTag) = [Get (priceForPrintTag ++ printTag)].
Proof.
  unfold fetchCardPriceByPrintTag, http_Get, bind, trace, ret; simpl.
  destruct (net_Get _) as [err | resp]; simpl; [reflexivity |].
  destruct (Decode _ _ _) as [response [err |]]; simpl; [reflexivity |].
  destruct (String.eqb _ _); reflexivity.
Qed.

(** A response that [fetchCardPriceByPrintTag] returns was decoded from
    the body of the answer: its prices are numbers. *)
Lemma fetch_finite (printTag : string) (response : Ygo.t) :
  fst (fetchCardPriceByPrintTag net_Get printTag) = (Some response, None) ->
  finitePrices (pricesOf response).
Proof.
  unfold fetchCardPriceByPrintTag, http_Get, bind, ret; simpl.
  destruct (net_Get _) as [err | resp]; simpl; [discriminate |].
  pose proof (Decode_finite (http.Body resp)) as Hfin.
  destruct (Decode Ygo.unmarshal Ygo.zero (http.Body resp)) as [r [err |]];
    simpl; [discriminate |].
  destruct (String.eqb _ _); simpl; [| discriminate].
  intros H; injection H as <-. exact Hfin.
Qed.

Lemma trace_bind {A B : Type} (m : IO A) (k : A -> IO B) :
  trace (bind m k) = (trace m ++ trace (k (fst m)))%list.
Proof.
  unfold bind, trace; destruct m as [a t1]; simpl.
  destruct (k a); reflexivity.
Qed.

Lemma trace_then_ret {A : Type} (m : IO A) :
  trace (m ;;; ret tt) = trace m.
Proof.
  rewrite trace_bind; unfold ret, trace; simpl. apply app_nil_r.
Qed.

End Calls.

(** ** The three branches of the handler *)

Section Handler.

Variable unicode_ToLower : rune -> rune.
Variable telegramBotApiToken : string.
Variable net_Get : string -> error + http.Response.
Variable net_Post : string -> string -> jsonBytes -> error + http.Response.

Local Abbreviation handle := (handleUpdate unicode_ToLower telegramBotApiToken net_Get net_Post).
Local Abbreviation fetch := (fetchCardPriceByPrintTag net_Get).
Local Abbreviation posted := (posted telegramBotApiToken).

(** No command in the lower-cased text: one POST, no GET. *)
Lemma handle_without_command (body : webhookReqBody.t) :
  Contains (ToLower unicode_ToLower (textOf body)) command = false ->
  trace (handle body) = [posted (chatOf body) "Invalid command!"].
Proof.
  intros Hc. unfold handleUpdate.
  change (webhookReqBody.Message.Text (webhookReqBody.Message body)) with (textOf body).
  change "/priceprinttag" with command. rewrite Hc.
  rewrite trace_then_ret. apply sendReply_trace.
Qed.

(** The command, and fewer than two parts: one POST, no GET. *)
Lemma handle_without_argument (body : webhookReqBody.t) :
  Contains (ToLower unicode_ToLower (textOf body)) command = true ->
  (List.length (Split (textOf body) " ") < 2)%nat ->
  trace (handle body) = [posted (chatOf body) "Error fetching card price!"].
Proof.
  intros Hc Hlen. unfold handleUpdate.
  change (webhookReqBody.Message.Text (webhookReqBody.Message body)) with (textOf body).
  change "/priceprinttag" with command. rewrite Hc.
  apply Nat.ltb_lt in Hlen. rewrite Hlen.
  rewrite trace_then_ret. apply sendReply_trace.
Qed.

(** The command, and a second part: one GET for that part, then one POST
    whose text depends on what the fetch returned. *)
Lemma handle_with_argument (body : webhookReqBody.t) (first printTag : string)
    (rest : list string) :
  Contains (ToLower unicode_ToLower (textOf body)) command = true ->
  Split (textOf body) " " = first :: printTag :: rest ->
  trace (handle body) =
  [Get (priceForPrintTag ++ printTag);
   posted (chatOf body)
     match fst (fetch printTag) with
     | (Some response, None) => convertYgoPricesPriceForPrintTagResponseToReply response
     | _ => "Error fetching card price!"
     end].
Proof.
  intros Hc Hs. unfold handleUpdate.
  change (webhookReqBody.Message.Text (webhookReqBody.Message body)) with (textOf body).
  change "/priceprinttag" with command. rewrite Hc, Hs.
  cbn [List.length Nat.ltb Nat.leb nth].
  rewrite trace_bind, fetch_trace.
  destruct (fst (fetch printTag)) as [[response |] [err |]];
    rewrite trace_then_ret, sendReply_trace; reflexivity.
Qed.

(** In every branch the handler posts once, to the chat of the update. *)
Lemma handle_posts_once (body : webhookReqBody.t) :
  exists text, replies (trace (handle body)) = [reply (chatOf body) text].
Proof.
  destruct (Contains (ToLower unicode_ToLower (textOf body)) command) eqn:Hc.
  - destruct (Split (textOf body) " ") as [| first [| printTag rest]] eqn:Hs.
    + eexists. rewrite handle_without_argument by (rewrite ?Hs; simpl; auto). reflexivity.
    + eexists. rewrite handle_without_argument by (rewrite ?Hs; simpl; auto). reflexivity.
    + eexists. rewrite (handle_with_argument body first printTag rest Hc Hs). reflexivity.
  - eexists. rewrite handle_without_command by assumption. reflexivity.
Qed.

End Handler.

(** ** The claims of the specification *)

Section Claims.

Variable unicode_ToLower : rune -> rune.
Variable telegramBotApiToken : string.
Variable net_Get : string -> error + http.Response.
Variable net_Post : string -> string -> jsonBytes -> error + http.Response.

Local Abbreviation handle := (handleUpdate unicode_ToLower telegramBotApiToken net_Get net_Post).
Local Abbreviation handler := (webhookHandler unicode_ToLower telegramBotApiToken net_Get net_Post).
Local Abbreviation fetch := (fetchCardPriceByPrintTag net_Get).
Local Abbreviation lower := (ToLower unicode_ToLower).

(** C1, as amended.  When the lower-cased text contains "/priceprinttag"
    and the original text, cut at every single space, has a second part
    that is not empty, the pricing service is asked exactly once, for that
    second part as it was written (its case kept). *)
Theorem second_part_is_fetched_verbatim (body : webhookReqBody.t)
    (first printTag : string) (rest : list string) :
  Contains (lower (textOf body)) command = true ->
  Split (textOf body) " " = first :: printTag :: rest ->
  printTag <> EmptyString ->
  lookups (trace (handle body)) = [priceForPrintTag ++ printTag].
Proof.
  intros Hc Hs _. rewrite (handle_with_argument _ _ _ _ body first printTag rest Hc Hs).
  reflexivity.
Qed.

(** C2.  When the fetch returns a response, the one reply sent is the
    text "Prices\nHigh :$H\nAverage: $A\nLow: $L", where H, A and L are the
    fields high, average and low of the response, each written in
    fixed-point notation with two decimals; that text is what
    [convertYgoPricesPriceForPrintTagResponseToReply] builds; and for
    10.5, 7.25 and 3.0 it is
    "Prices\nHigh :$10.50\nAverage: $7.25\nLow: $3.00". *)
Theorem price_reply_text :
  (forall (body : webhookReqBody.t) (first printTag : string) (rest : list string)
          (response : Ygo.t),
     Contains (lower (textOf body)) command = true ->
     Split (textOf body) " " = first :: printTag :: rest ->
     fst (fetch printTag) = (Some response, None) ->
     replies (trace (handle body)) =
     [reply (chatOf body)
        (quoteReply (Ygo.Prices.High (pricesOf response))
           (Ygo.Prices.Average (pricesOf response))
           (Ygo.Prices.Low (pricesOf response)))] /\
     twoDecimals (FormatFloat_f (Ygo.Prices.High (pricesOf response)) 2) /\
     twoDecimals (FormatFloat_f (Ygo.Prices.Average (pricesOf response)) 2) /\
     twoDecimals (FormatFloat_f (Ygo.Prices.Low (pricesOf response)) 2)) /\
  (forall response : Ygo.t,
     convertYgoPricesPriceForPrintTagResponseToReply response =
     quoteReply (Ygo.Prices.High (pricesOf response))
       (Ygo.Prices.Average (pricesOf response))
       (Ygo.Prices.Low (pricesOf response))) /\
  quoteReply (f64 21 (-1)) (f64 29 (-2)) (f64 3 0) =
  "Prices" ++ LF ++ "High :$10.50" ++ LF ++ "Average: $7.25" ++ LF ++ "Low: $3.00".
Proof.
  split; [| split; [exact convert_is_quoteReply | vm_compute; reflexivity]].
  intros body first printTag rest response Hc Hs Hf.
  split.
  - rewrite (handle_with_argument _ _ _ _ body first printTag rest Hc Hs), Hf.
    rewrite convert_is_quoteReply. reflexivity.
  - destruct (fetch_finite net_Get printTag response Hf) as [Hh [Ha Hl]].
    repeat split; apply FormatFloat_f_two_decimals; assumption.
Qed.

(** C3.  When the lower-cased text does not contain "/priceprinttag", the
    one reply sent is "Invalid command!" and the pricing service is not
    asked. *)
Theorem invalid_command_reply (body : webhookReqBody.t) :
  Contains (lower (textOf body)) command = false ->
  replies (trace (handle body)) = [reply (chatOf body) "Invalid command!"] /\
  lookups (trace (handle body)) = [].
Proof.
  intros Hc. rewrite handle_without_command by assumption. split; reflexivity.
Qed.

(** C4.  When the lower-cased text contains the command and cutting the
    original text at every single space gives fewer than two parts, the
    one reply sent is "Error fetching card price!" and the pricing service
    is not asked. *)
Theorem missing_argument_reply (body : webhookReqBody.t) :
  Contains (lower (textOf body)) command = true ->
  (List.length (Split (textOf body) " ") < 2)%nat ->
  replies (trace (handle body)) = [reply (chatOf body) "Error fetching card price!"] /\
  lookups (trace (handle body)) = [].
Proof.
  intros Hc Hlen. rewrite handle_without_argument by assumption. split; reflexivity.
Qed.


(** C6.  When the fetch comes back as NotFound or as a TransportError, the
    handler sends "Error fetching card price!" and does nothing more: the
    trace is the lookup followed by that one reply, the same for both. *)
Theorem pricing_failure_reply (body : webhookReqBody.t)
    (first printTag : string) (rest : list string) :
  Contains (lower (textOf body)) command = true ->
  Split (textOf body) " " = first :: printTag :: rest ->
  (outcomeOf (fst (fetch printTag)) = NotFound \/
   exists err, outcomeOf (fst (fetch printTag)) = TransportError err) ->
  trace (handle body) =
  [Get (priceForPrintTag ++ printTag);
   posted telegramBotApiToken (chatOf body) "Error fetching card price!"].
Proof.
  intros Hc Hs Hout.
  rewrite (handle_with_argument _ _ _ _ body first printTag rest Hc Hs).
  destruct (fst (fetch printTag)) as [[response |] [err |]]; try reflexivity.
  simpl in Hout. destruct Hout as [H | [err H]]; discriminate H.
Qed.

(** C7.  [sendReply] returns no error exactly when the platform answered
    with status code 200.  Otherwise it returns an error: the error of the
    transport when the call failed, and for any other status code an error
    whose text is "unexpected status" followed by the status received. *)
Theorem sendReply_result (chatID : Z) (text : string) :
  let answer :=
    net_Post (sendMessageUrl telegramBotApiToken) "application/json"
      (Marshalled (reply chatID text)) in
  let result := fst (sendReply telegramBotApiToken net_Post chatID text) in
  result =
  match answer with
  | inl err => Some err
  | inr res =>
    if http.StatusCode res =? 200 then None
    else Some (errorString ("unexpected status" ++ http.Status res))
  end /\
  (result = None <-> exists res, answer = inr res /\ http.StatusCode res = 200).
Proof.
  cbv zeta. unfold sendReply, http_Post, Marshal, bind, ret; simpl.
  change ("https://api.telegram.org/bot" ++ telegramBotApiToken ++ "/sendMessage")
    with (sendMessageUrl telegramBotApiToken).
  change {| sendMessageReqBody.ChatID := chatID; sendMessageReqBody.Text := text |}
    with (reply chatID text).
  destruct (net_Post _ _ _) as [err | res]; simpl.
  - split; [reflexivity |]. split; [discriminate |].
    intros [res [H _]]; discriminate H.
  - unfold http.StatusOK. destruct (http.StatusCode res =? 200) eqn:Hs; simpl.
    + split; [reflexivity |]. split; [| reflexivity].
      intros _. exists res. split; [reflexivity |]. now apply Z.eqb_eq.
    + split; [reflexivity |]. split; [discriminate |].
      intros [res' [H H200]]. injection H as <-. apply Z.eqb_neq in Hs. contradiction.
Qed.

(** C8, on the code.  The update whose text has two spaces after the
    command decodes, the second part of its text is empty, and the handler
    asks the pricing service for it: the one lookup is made for the empty
    print tag. *)
Theorem empty_print_tag_is_fetched :
  Decode webhookReqBody.unmarshal webhookReqBody.zero (updateBody "/priceprinttag  SDK-001") =
  (update "/priceprinttag  SDK-001" 42, None) /\
  Split "/priceprinttag  SDK-001" " " = ["/priceprinttag"; EmptyString; "SDK-001"] /\
  lookups (trace (handler (updateBody "/priceprinttag  SDK-001"))) =
  [priceForPrintTag ++ EmptyString].
Proof.
  assert (Hd : Decode webhookReqBody.unmarshal webhookReqBody.zero
                 (updateBody "/priceprinttag  SDK-001") =
               (update "/priceprinttag  SDK-001" 42, None)) by (vm_compute; reflexivity).
  split; [exact Hd | split; [reflexivity |]].
  unfold webhookHandler. rewrite Hd.
  rewrite (handle_with_argument _ _ _ _ _ "/priceprinttag" EmptyString ["SDK-001"]);
    reflexivity.
Qed.

(** C9.  For every update that decodes, whatever branch the handler
    takes, exactly one reply is sent and its chat ID is the chat ID of the
    update. *)
Theorem chat_id_is_propagated (reqBody : string) (body : webhookReqBody.t) :
  Decode webhookReqBody.unmarshal webhookReqBody.zero reqBody = (body, None) ->
  map sendMessageReqBody.ChatID (replies (trace (handler reqBody))) = [chatOf body].
Proof.
  intros Hd. unfold webhookHandler. rewrite Hd.
  destruct (handle_posts_once unicode_ToLower telegramBotApiToken net_Get net_Post body)
    as [text Ht].
  rewrite Ht. reflexivity.
Qed.

(** C10, as amended.  When the body is a JSON object in which every
    expected field (message, its text, its chat, the chat's id) is absent
    or null (the empty object is one), or is null, decoding succeeds with
    the zero values, text "" and chat ID 0, and the handler takes the
    invalid-command branch: its one call sends "Invalid command!" to
    chat 0. *)
Theorem body_without_message_gets_invalid_command (reqBody : string) (v : json) :
  readValue reqBody = Some v ->
  noUpdateFields v = true ->
  Decode webhookReqBody.unmarshal webhookReqBody.zero reqBody = (update EmptyString 0, None) /\
  trace (handler reqBody) = [posted telegramBotApiToken 0 "Invalid command!"].
Proof.
  intros Hr Hl.
  assert (Hd : Decode webhookReqBody.unmarshal webhookReqBody.zero reqBody =
               (update EmptyString 0, None)).
  { unfold Decode. rewrite Hr. apply (unmarshal_unchanged v Hl). }
  split; [exact Hd |].
  unfold webhookHandler. rewrite Hd.
  rewrite handle_without_command by reflexivity. reflexivity.
Qed.

End Claims.

(** ** Concrete runs *)

Lemma second_part_is_fetched_verbatim_witness :
  Contains (ToLower keepRune "/PricePrintTag SDK-ABc") command = true /\
  Split "/PricePrintTag SDK-ABc" " " = ["/PricePrintTag"; "SDK-ABc"] /\
  lookups (trace (handleUpdate keepRune sampleToken pricing_Get accepting_Post
                    (update "/PricePrintTag SDK-ABc" 42))) =
  [priceForPrintTag ++ "SDK-ABc"].
Proof.
  split; [reflexivity | split; [reflexivity |]].
  apply (second_part_is_fetched_verbatim keepRune sampleToken pricing_Get accepting_Post
           (update "/PricePrintTag SDK-ABc" 42) "/PricePrintTag" "SDK-ABc" []);
    [reflexivity | reflexivity | discriminate].
Defined.

(** C1 as stated fails when the white space after the command is not a
    single space.  The update whose text is "/priceprinttag", a line feed
    (written \n in the body) and "SDK-001" decodes; in its text the
    command is followed by a second whitespace-delimited token, SDK-001;
    yet the text has no space to cut at, so the pricing service is not
    asked at all and the reply is the error message. *)
Lemma second_token_after_line_feed_counterexample :
  Decode webhookReqBody.unmarshal webhookReqBody.zero (updateBody "/priceprinttag\nSDK-001") =
  (update ("/priceprinttag" ++ LF ++ "SDK-001") 42, None) /\
  Contains ("/priceprinttag" ++ LF ++ "SDK-001") command = true /\
  whitespaceTokens ("/priceprinttag" ++ LF ++ "SDK-001") = ["/priceprinttag"; "SDK-001"] /\
  lookups (trace (webhookHandler keepRune sampleToken pricing_Get accepting_Post
                    (updateBody "/priceprinttag\nSDK-001"))) = [] /\
  replies (trace (webhookHandler keepRune sampleToken pricing_Get accepting_Post
                    (updateBody "/priceprinttag\nSDK-001"))) =
  [reply 42 "Error fetching card price!"].
Proof.
  repeat split; vm_compute; reflexivity.
Qed.

Lemma price_reply_text_witness :
  Contains (ToLower keepRune "/priceprinttag SDK-001") command = true /\
  Split "/priceprinttag SDK-001" " " = ["/priceprinttag"; "SDK-001"] /\
  fst (fetchCardPriceByPrintTag pricing_Get "SDK-001") =
  (Some (fst (Decode Ygo.unmarshal Ygo.zero samplePrices)), None) /\
  replies (trace (handleUpdate keepRune sampleToken pricing_Get accepting_Post
                    (update "/priceprinttag SDK-001" 42))) =
  [reply 42 ("Prices" ++ LF ++ "High :$10.50" ++ LF ++ "Average: $7.25" ++ LF ++ "Low: $3.00")].
Proof.
  split; [reflexivity | split; [reflexivity | split; [vm_compute; reflexivity |]]].
  destruct (price_reply_text keepRune sampleToken pricing_Get accepting_Post) as [Hsent _].
  destruct (Hsent (update "/priceprinttag SDK-001" 42) "/priceprinttag" "SDK-001" []
              (fst (Decode Ygo.unmarshal Ygo.zero samplePrices))) as [Hr _];
    [reflexivity | reflexivity | vm_compute; reflexivity |].
  rewrite Hr. vm_compute; reflexivity.
Defined.

Lemma invalid_command_reply_witness :
  Contains (ToLower keepRune "hello bot") command = false /\
  replies (trace (handleUpdate keepRune sampleToken pricing_Get accepting_Post
                    (update "hello bot" 42))) = [reply 42 "Invalid command!"] /\
  lookups (trace (handleUpdate keepRune sampleToken pricing_Get accepting_Post
                    (update "hello bot" 42))) = [].
Proof.
  split; [reflexivity |].
  apply (invalid_command_reply keepRune sampleToken pricing_Get accepting_Post
           (update "hello bot" 42)).
  reflexivity.
Defined.

Lemma missing_argument_reply_witness :
  Contains (ToLower keepRune "/PricePrintTag") command = true /\
  (List.length (Split "/PricePrintTag" " ") < 2)%nat /\
  replies (trace (handleUpdate keepRune sampleToken pricing_Get accepting_Post
                    (update "/PricePrintTag" 42))) =
  [reply 42 "Error fetching card price!"] /\
  lookups (trace (handleUpdate keepRune sampleToken pricing_Get accepting_Post
                    (update "/PricePrintTag" 42))) = [].
Proof.
  split; [reflexivity | split; [simpl; lia |]].
  apply (missing_argument_reply keepRune sampleToken pricing_Get accepting_Post
           (update "/PricePrintTag" 42)); [reflexivity | simpl; lia].
Defined.

Lemma pricing_failure_reply_witness :
  outcomeOf (fst (fetchCardPriceByPrintTag failing_Get "SDK-001")) = NotFound /\
  trace (handleUpdate keepRune sampleToken failing_Get accepting_Post
           (update "/priceprinttag SDK-001" 42)) =
  [Get (priceForPrintTag ++ "SDK-001");
   posted sampleToken 42 "Error fetching card price!"].
Proof.
  split; [vm_compute; reflexivity |].
  apply (pricing_failure_reply keepRune sampleToken failing_Get accepting_Post
           (update "/priceprinttag SDK-001" 42) "/priceprinttag" "SDK-001" []);
    [reflexivity | reflexivity | left; vm_compute; reflexivity].
Defined.

(** A number that overflows float64 in a field the program never reads
    still fails the decoding: the fetch returns the error and the reply
    is the error message. *)
Example overflowing_number_reply :
  fst (fetchCardPriceByPrintTag (fun _ => ok overflowingProperty) "SDK-001") =
  (None, Some (UnmarshalTypeError "number 1e999")) /\
  fst (fetchCardPriceByPrintTag (fun _ => ok overflowingListing) "SDK-001") =
  (None, Some (UnmarshalTypeError "number 1e999")) /\
  trace (webhookHandler keepRune sampleToken (fun _ => ok overflowingProperty) accepting_Post
           (updateBody "/priceprinttag SDK-001")) =
  [Get (priceForPrintTag ++ "SDK-001");
   posted sampleToken 42 "Error fetching card price!"].
Proof.
  repeat split; vm_compute; reflexivity.
Qed.

(** The same reply when the pricing service cannot be reached. *)
Example pricing_unreachable_reply :
  outcomeOf (fst (fetchCardPriceByPrintTag unreachable_Get "SDK-001")) =
  TransportError (NetworkError "dial tcp: no route to host") /\
  trace (webhookHandler keepRune sampleToken unreachable_Get accepting_Post
           (updateBody "/priceprinttag SDK-001")) =
  [Get (priceForPrintTag ++ "SDK-001");
   posted sampleToken 42 "Error fetching card price!"].
Proof.
  split; vm_compute; reflexivity.
Qed.

Lemma chat_id_is_propagated_witness :
  Decode webhookReqBody.unmarshal webhookReqBody.zero (updateBody "/priceprinttag SDK-001") =
  (update "/priceprinttag SDK-001" 42, None) /\
  map sendMessageReqBody.ChatID
    (replies (trace (webhookHandler keepRune sampleToken pricing_Get accepting_Post
                       (updateBody "/priceprinttag SDK-001")))) = [42].
Proof.
  split; [vm_compute; reflexivity |].
  apply (chat_id_is_propagated keepRune sampleToken pricing_Get accepting_Post
           (updateBody "/priceprinttag SDK-001") (update "/priceprinttag SDK-001" 42)).
  vm_compute; reflexivity.
Defined.

Lemma body_without_message_gets_invalid_command_witness :
  readValue "{}" = Some (JObject []) /\
  noUpdateFields (JObject []) = true /\
  Decode webhookReqBody.unmarshal webhookReqBody.zero "{}" = (update EmptyString 0, None) /\
  trace (webhookHandler keepRune sampleToken pricing_Get accepting_Post "{}") =
  [posted sampleToken 0 "Invalid command!"].
Proof.
  split; [vm_compute; reflexivity | split; [reflexivity |]].
  apply (body_without_message_gets_invalid_command keepRune sampleToken pricing_Get
           accepting_Post "{}" (JObject [])); vm_compute; reflexivity.
Defined.

(** A message that is there but empty is such a body too. *)
Example empty_message_reply :
  trace (webhookHandler keepRune sampleToken pricing_Get accepting_Post
           ("{" ++ quoted "message" ++ ":{" ++ quoted "chat" ++ ":{}}}")) =
  [posted sampleToken 0 "Invalid command!"].
Proof.
  vm_compute; reflexivity.
Qed.

(** C10 as stated fails for a body that is valid JSON but not an object:
    the array [[]] holds none of the message fields, yet it cannot be
    stored into the struct, decoding returns an error and the handler
    returns without sending anything. *)
Lemma array_body_counterexample :
  readValue "[]" = Some (JArray []) /\
  snd (Decode webhookReqBody.unmarshal webhookReqBody.zero "[]") =
  Some (UnmarshalTypeError "array") /\
  trace (webhookHandler keepRune sampleToken pricing_Get accepting_Post "[]") = [].
Proof.
  repeat split; vm_compute; reflexivity.
Qed.

(** * More of the handler *)

(** ** Cutting the text at spaces *)

Lemma string_of_list_ascii_app (l1 l2 : list ascii) :
  string_of_list_ascii (l1 ++ l2) = string_of_list_ascii l1 ++ string_of_list_ascii l2.
Proof.
  induction l1 as [| c l1 IH]; simpl; [reflexivity | now rewrite IH].
Qed.

Lemma revString_cons (c : ascii) (cur a : string) :
  revString (String c cur) ++ a = revString cur ++ String c a.
Proof.
  unfold revString. simpl. rewrite string_of_list_ascii_app, append_assoc. reflexivity.
Qed.

Lemma prefix_space (c : ascii) (s : string) :
  String.prefix " " (String c s) = Ascii.eqb c " ".
Proof.
  change (String.prefix " " (String c s))
    with (if ascii_dec " " c then String.prefix EmptyString s else false).
  destruct (ascii_dec " " c) as [<- | Hne].
  - destruct s; reflexivity.
  - symmetry. apply Ascii.eqb_neq. congruence.
Qed.

Lemma splitFrom_word (a : string) :
  noSpace a = true ->
  forall cur, splitFrom " " 0 cur a = [revString cur ++ a].
Proof.
  induction a as [| c a IH]; intros Ha cur.
  - simpl. now rewrite append_empty_r.
  - simpl in Ha. apply andb_true_iff in Ha. destruct Ha as [Hc Ha].
    apply negb_true_iff in Hc.
    cbn [splitFrom]. rewrite prefix_space, Hc, (IH Ha). now rewrite revString_cons.
Qed.

Lemma splitFrom_first (a b : string) :
  noSpace a = true ->
  forall cur,
    splitFrom " " 0 cur (a ++ String " " b) =
    (revString cur ++ a) :: splitFrom " " 0 EmptyString b.
Proof.
  induction a as [| c a IH]; intros Ha cur.
  - cbn [append splitFrom]. rewrite prefix_space. cbn. now rewrite append_empty_r.
  - simpl in Ha. apply andb_true_iff in Ha. destruct Ha as [Hc Ha].
    apply negb_true_iff in Hc.
    change (String c a ++ String " " b) with (String c (a ++ String " " b)).
    cbn [splitFrom]. rewrite prefix_space, Hc, (IH Ha). now rewrite revString_cons.
Qed.

(** [Split] cuts at the first space: the first part is what precedes it. *)
Lemma Split_first (a b : string) :
  noSpace a = true -> Split (a ++ String " " b) " " = a :: Split b " ".
Proof.
  intros Ha. unfold Split. apply (splitFrom_first a b Ha EmptyString).
Qed.

Lemma Split_word (a : string) : noSpace a = true -> Split a " " = [a].
Proof.
  intros Ha. unfold Split. apply (splitFrom_word a Ha EmptyString).
Qed.

(** A text has no space, or a first space. *)
Lemma first_space (s : string) :
  noSpace s = true \/ exists a b, noSpace a = true /\ s = a ++ String " " b.
Proof.
  induction s as [| c s IH]; [left; reflexivity |].
  simpl. destruct (Ascii.eqb c " ") eqn:Hc.
  - right. exists EmptyString, s. apply Ascii.eqb_eq in Hc. subst c. auto.
  - destruct IH as [H | [a [b [Ha ->]]]]; [left; exact H |].
    right. exists (String c a), b. simpl. rewrite Hc, Ha. auto.
Qed.

Lemma Split_nonempty (s : string) : Split s " " <> [].
Proof.
  destruct (first_space s) as [H | [a [b [Ha ->]]]].
  - rewrite Split_word by exact H. discriminate.
  - rewrite Split_first by exact Ha. discriminate.
Qed.

(** No part that [Split] returns holds a space. *)
Lemma Split_parts (n : nat) :
  forall s, (String.length s <= n)%nat -> Forall (fun p => noSpace p = true) (Split s " ").
Proof.
  induction n as [| n IH]; intros s Hn.
  - destruct s; [| simpl in Hn; lia]. repeat constructor.
  - destruct (first_space s) as [H | [a [b [Ha ->]]]].
    + rewrite Split_word by exact H. repeat constructor. exact H.
    + rewrite Split_first by exact Ha. constructor; [exact Ha |].
      apply IH. assert (Hl : String.length (a ++ String " " b) =
                             (String.length a + S (String.length b))%nat).
      { clear. induction a; simpl; [reflexivity | now rewrite IHa]. }
      lia.
Qed.

Lemma Split_short (s : string) :
  (List.length (Split s " ") < 2)%nat <-> noSpace s = true.
Proof.
  destruct (first_space s) as [H | [a [b [Ha ->]]]].
  - rewrite Split_word by exact H. simpl. split; [intros _; exact H | lia].
  - rewrite Split_first by exact Ha.
    pose proof (Split_nonempty b) as Hb. destruct (Split b " ") as [| x l]; [congruence |].
    simpl. split; [lia |]. intros Hs. exfalso. clear - Hs.
    induction a as [| c a IH]; simpl in Hs; [discriminate |].
    apply andb_true_iff in Hs. destruct Hs as [_ Hs]. auto.
Qed.

(** A text with a space, and after it a part that ends the text or is
    followed by a space, has at least two parts: what precedes the first
    space, and that part. *)
Lemma Split_two_parts (a b tail : string) :
  noSpace a = true -> noSpace b = true ->
  tail = EmptyString \/ (exists rest, tail = String " " rest) ->
  exists rest, Split (a ++ String " " (b ++ tail)) " " = a :: b :: rest.
Proof.
  intros Ha Hb Ht. rewrite (Split_first a _ Ha). destruct Ht as [-> | [rest ->]].
  - rewrite append_empty_r, (Split_word b Hb). exists []. reflexivity.
  - rewrite (Split_first b _ Hb). eexists. reflexivity.
Qed.

(** ** The command in any case *)

Lemma byteZ_byteOf (z : Z) : 0 <= z < 256 -> byteZ (byteOf z) = z.
Proof.
  intros Hz. unfold byteZ, byteOf. rewrite N_ascii_embedding.
  - apply Z2N.id. lia.
  - change 256%N with (Z.to_N 256). apply Z2N.inj_lt; lia.
Qed.

Lemma isASCII_lowerASCII (s : string) : isASCII (lowerASCII s) = isASCII s.
Proof.
  induction s as [| c s IH]; [reflexivity |]. simpl. rewrite IH. f_equal.
  destruct (isUpperASCII c) eqn:Hu; [| reflexivity].
  unfold isUpperASCII in Hu. apply andb_true_iff in Hu. destruct Hu as [H1 H2].
  apply Z.leb_le in H1, H2. rewrite byteZ_byteOf by lia.
  unfold RuneSelf. transitivity true; [apply Z.ltb_lt; lia | symmetry; apply Z.ltb_lt; lia].
Qed.

Lemma lowerASCII_fixed (s : string) : hasUpper s = false -> lowerASCII s = s.
Proof.
  induction s as [| c s IH]; [reflexivity |]. simpl. intros H.
  apply orb_false_iff in H. destruct H as [Hc Hs]. rewrite Hc, (IH Hs). reflexivity.
Qed.

Lemma lowerASCII_split (a b : string) :
  forall s, lowerASCII s = a ++ b ->
            exists a' b', s = a' ++ b' /\ lowerASCII a' = a /\ lowerASCII b' = b.
Proof.
  induction a as [| x a IH]; intros s H.
  - exists EmptyString, s. auto.
  - destruct s as [| c s]; [discriminate H |]. simpl in H. injection H as Hx H.
    destruct (IH s H) as [a' [b' [-> [Ha Hb]]]].
    exists (String c a'), b'. simpl. rewrite Ha, Hx. auto.
Qed.

Section AnyCase.

Variable f : rune -> rune.
Hypothesis f_ascii : lowersASCII f.

(** [Map] over an ASCII byte writes the byte, lower-cased. *)
Lemma MapFrom_ascii_byte (c : ascii) (s : string) :
  byteZ c < 128 ->
  MapFrom f 0 (String c s) =
  String (if isUpperASCII c then byteOf (byteZ c + 32) else c) (MapFrom f 0 s).
Proof.
  intros Hc. cbn [MapFrom]. unfold DecodeRuneInString.
  assert (Hlt : (byteZ c <? RuneSelf) = true) by (apply Z.ltb_lt; exact Hc).
  rewrite Hlt. pose proof (byteZ_range c) as Hr.
  rewrite (f_ascii (byteZ c)) by lia.
  unfold isUpperASCII. destruct ((65 <=? byteZ c) && (byteZ c <=? 90)) eqn:Hu.
  - apply andb_true_iff in Hu. destruct Hu as [H1 H2]. apply Z.leb_le in H1, H2.
    assert (H0 : (byteZ c + 32 <? 0) = false) by (apply Z.ltb_ge; lia). rewrite H0.
    unfold EncodeRune.
    assert (H3 : ((0 <=? byteZ c + 32) && (byteZ c + 32 <=? 127)) = true).
    { apply andb_true_iff. split; apply Z.leb_le; lia. }
    rewrite H3. reflexivity.
  - assert (H0 : (byteZ c <? 0) = false) by (apply Z.ltb_ge; lia). rewrite H0.
    unfold EncodeRune.
    assert (H3 : ((0 <=? byteZ c) && (byteZ c <=? 127)) = true).
    { apply andb_true_iff. split; apply Z.leb_le; lia. }
    rewrite H3, byteOf_byteZ. reflexivity.
Qed.

Lemma MapFrom_ascii_word (w t : string) :
  isASCII w = true -> MapFrom f 0 (w ++ t) = lowerASCII w ++ MapFrom f 0 t.
Proof.
  induction w as [| c w IH]; intros Hw; [reflexivity |].
  simpl in Hw. apply andb_true_iff in Hw. destruct Hw as [Hc Hw].
  apply Z.ltb_lt in Hc. unfold RuneSelf in Hc.
  change (String c w ++ t) with (String c (w ++ t)).
  rewrite MapFrom_ascii_byte by exact Hc. rewrite (IH Hw). reflexivity.
Qed.

(** A text that holds the command in any mix of upper and lower case
    holds it once lower-cased by the handler. *)
Lemma Contains_ToLower_any_case (s : string) :
  Contains (lowerASCII s) command = true -> Contains (ToLower f s) command = true.
Proof.
  intros H. apply Contains_iff in H. destruct H as [u' [t' H]].
  apply lowerASCII_split in H. destruct H as [u [wt [-> [_ H]]]].
  apply lowerASCII_split in H. destruct H as [w [t [-> [Hw _]]]].
  apply Contains_iff. unfold ToLower.
  destruct (isASCII (u ++ w ++ t)).
  - destruct (negb (hasUpper (u ++ w ++ t))) eqn:Hup.
    + apply negb_true_iff in Hup. rewrite <- (lowerASCII_fixed _ Hup).
      rewrite !lowerASCII_app, Hw. eauto.
    + rewrite !lowerASCII_app, Hw. eauto.
  - assert (Hascii : isASCII w = true).
    { rewrite <- isASCII_lowerASCII, Hw. reflexivity. }
    destruct w as [| c w]; [discriminate Hw |].
    assert (Hc : byteZ c < 128).
    { simpl in Hascii. apply andb_true_iff in Hascii. destruct Hascii as [Hc _].
      apply Z.ltb_lt in Hc. exact Hc. }
    unfold Map.
    destruct (MapFrom_until_ascii f u (w ++ t) c Hc 0%nat I) as [out Hout].
    change (String c (w ++ t)) with (String c w ++ t) in Hout.
    rewrite Hout, (MapFrom_ascii_word _ t Hascii), Hw. eauto.
Qed.

End AnyCase.

Lemma asciiToLower_lowersASCII : lowersASCII asciiToLower.
Proof.
  intros r _. reflexivity.
Qed.

(** ** The calls of the handler *)

Section Coverage.

Variable unicode_ToLower : rune -> rune.
Variable telegramBotApiToken : string.
Variable net_Get : string -> error + http.Response.
Variable net_Post : string -> string -> jsonBytes -> error + http.Response.

Local Abbreviation handle := (handleUpdate unicode_ToLower telegramBotApiToken net_Get net_Post).
Local Abbreviation handler := (webhookHandler unicode_ToLower telegramBotApiToken net_Get net_Post).
Local Abbreviation fetch := (fetchCardPriceByPrintTag net_Get).
Local Abbreviation lower := (ToLower unicode_ToLower).
Local Abbreviation decode := (Decode webhookReqBody.unmarshal webhookReqBody.zero).

(** The calls of the handler on a decoded update, and the text it sends. *)
Lemma handle_trace_cases (body : webhookReqBody.t) :
  trace (handle body) = [posted telegramBotApiToken (chatOf body) "Invalid command!"] \/
  trace (handle body) = [posted telegramBotApiToken (chatOf body) "Error fetching card price!"] \/
  exists printTag,
    In printTag (tl (Split (textOf body) " ")) /\
    (trace (handle body) =
     [Get (priceForPrintTag ++ printTag);
      posted telegramBotApiToken (chatOf body) "Error fetching card price!"] \/
     exists response,
       fst (fetch printTag) = (Some response, None) /\
       trace (handle body) =
       [Get (priceForPrintTag ++ printTag);
        posted telegramBotApiToken (chatOf body)
          (convertYgoPricesPriceForPrintTagResponseToReply response)]).
Proof.
  destruct (Contains (lower (textOf body)) command) eqn:Hc.
  - destruct (Split (textOf body) " ") as [| first [| printTag rest]] eqn:Hs.
    + right; left. apply handle_without_argument; [exact Hc | rewrite Hs; simpl; lia].
    + right; left. apply handle_without_argument; [exact Hc | rewrite Hs; simpl; lia].
    + right; right. exists printTag. split; [left; reflexivity |].
      rewrite (handle_with_argument _ _ _ _ body first printTag rest Hc Hs).
      destruct (fst (fetch printTag)) as [[response |] [err |]] eqn:Hf; auto.
      right. exists response. auto.
  - left. apply handle_without_command, Hc.
Qed.

(** X1.  The handler makes no outbound call at all exactly when the body
    of the request does not decode: a body that decodes always gets a
    reply. *)
Theorem handler_silent_iff_undecodable (reqBody : string) :
  trace (handler reqBody) = [] <-> snd (decode reqBody) <> None.
Proof.
  unfold webhookHandler. destruct (decode reqBody) as [body [err |]]; simpl.
  - split; [discriminate | reflexivity].
  - split; [| congruence]. intros H.
    destruct (handle_trace_cases body) as [H1 | [H1 | [tag [_ [H1 | [r [_ H1]]]]]]];
      rewrite H1 in H; discriminate H.
Qed.

(** X2.  The handler makes at most two calls.  When it makes two, the
    first is the GET to the pricing service and the second the POST of the
    reply, to the chat of the update: the reply is sent after the lookup
    has returned, and nothing follows it. *)
Theorem handler_calls_in_order (reqBody : string) :
  let chat := chatOf (fst (decode reqBody)) in
  trace (handler reqBody) = [] \/
  (exists text, trace (handler reqBody) = [posted telegramBotApiToken chat text]) \/
  (exists printTag text,
     trace (handler reqBody) =
     [Get (priceForPrintTag ++ printTag); posted telegramBotApiToken chat text]).
Proof.
  cbv zeta. unfold webhookHandler. destruct (decode reqBody) as [body [err |]]; simpl.
  - left; reflexivity.
  - right.
    destruct (handle_trace_cases body) as [H1 | [H1 | [tag [_ [H1 | [r [_ H1]]]]]]];
      rewrite H1.
    + left. eexists. reflexivity.
    + left. eexists. reflexivity.
    + right. eexists _, _. reflexivity.
    + right. eexists _, _. reflexivity.
Qed.

(** X3.  Whatever the request and whatever the two services answer, the
    text of a reply is "Invalid command!", "Error fetching card price!" or
    the price text of three numbers; none of the three is a NaN or an
    infinity, so no error detail and no "NaN" or "+Inf" reaches the chat. *)
Theorem reply_text_is_one_of_three (reqBody : string) (r : sendMessageReqBody.t) :
  In r (replies (trace (handler reqBody))) ->
  sendMessageReqBody.Text r = "Invalid command!" \/
  sendMessageReqBody.Text r = "Error fetching card price!" \/
  exists high average low,
    finite high = true /\ finite average = true /\ finite low = true /\
    sendMessageReqBody.Text r = quoteReply high average low.
Proof.
  unfold webhookHandler. destruct (decode reqBody) as [body [err |]]; simpl; [intros [] |].
  destruct (handle_trace_cases body) as [H1 | [H1 | [tag [_ [H1 | [resp [Hf H1]]]]]]];
    rewrite H1; simpl; intros [<- | []]; simpl; auto.
  right; right.
  destruct (fetch_finite net_Get tag resp Hf) as [Hh [Ha Hl]].
  exists (Ygo.Prices.High (pricesOf resp)), (Ygo.Prices.Average (pricesOf resp)),
    (Ygo.Prices.Low (pricesOf resp)).
  split; [exact Hh | split; [exact Ha | split; [exact Hl |]]].
  apply convert_is_quoteReply.
Qed.

(** X4.  The handler drops what [sendReply] returns: with a chat platform
    that answers differently (an error, another status) its calls and its
    result are the same. *)
Theorem reply_outcome_is_dropped
    (net_Post' : string -> string -> jsonBytes -> error + http.Response)
    (reqBody : string) :
  webhookHandler unicode_ToLower telegramBotApiToken net_Get net_Post' reqBody =
  handler reqBody.
Proof.
  assert (Hs : forall chat text,
             trace (sendReply telegramBotApiToken net_Post' chat text ;;; ret tt) =
             trace (sendReply telegramBotApiToken net_Post chat text ;;; ret tt)).
  { intros. rewrite !trace_then_ret, !sendReply_trace. reflexivity. }
  assert (Hio : forall m m' : IO unit, trace m = trace m' -> m = m').
  { intros [[] t] [[] t']; simpl. unfold trace; simpl. congruence. }
  unfold webhookHandler. destruct (decode reqBody) as [body [err |]]; [reflexivity |].
  apply Hio. unfold handleUpdate.
  destruct (Contains _ _); [| apply Hs].
  destruct (Nat.ltb _ _); [apply Hs |].
  rewrite !trace_bind. f_equal.
  destruct (fst (fetchCardPriceByPrintTag net_Get _)) as [[response |] [err |]]; apply Hs.
Qed.

(** X5.  [fetchCardPriceByPrintTag] never looks at the status of the
    answer: two answers with the same body (or the same transport error)
    give the same result, so a 404 or a 500 whose body decodes with the
    status field "success" is a price. *)
Theorem pricing_status_is_ignored
    (net_Get' : string -> error + http.Response) (printTag : string) :
  sameBody (net_Get (priceForPrintTag ++ printTag)) (net_Get' (priceForPrintTag ++ printTag)) ->
  fetchCardPriceByPrintTag net_Get' printTag = fetch printTag.
Proof.
  unfold fetchCardPriceByPrintTag, http_Get, bind, ret, sameBody.
  change ("https://yugiohprices.com/api/price_for_print_tag/" ++ printTag)
    with (priceForPrintTag ++ printTag).
  destruct (net_Get (priceForPrintTag ++ printTag)) as [e | r],
           (net_Get' (priceForPrintTag ++ printTag)) as [e' | r']; simpl;
    intros H; try contradiction H; rewrite H; reflexivity.
Qed.

(** X6.  A response is returned only without an error, only with the
    status field "success", only decoded from the body of the answer to
    the GET for that print tag, and its three prices are numbers. *)
Theorem fetched_response_is_success (printTag : string) (response : Ygo.t)
    (err : option error) :
  fst (fetch printTag) = (Some response, err) ->
  err = None /\
  Ygo.Status response = "success" /\
  finitePrices (pricesOf response) /\
  exists resp,
    net_Get (priceForPrintTag ++ printTag) = inr resp /\
    Decode Ygo.unmarshal Ygo.zero (http.Body resp) = (response, None).
Proof.
  unfold fetchCardPriceByPrintTag, http_Get, bind, ret.
  change ("https://yugiohprices.com/api/price_for_print_tag/" ++ printTag)
    with (priceForPrintTag ++ printTag).
  destruct (net_Get (priceForPrintTag ++ printTag)) as [e | resp]; simpl; [discriminate |].
  pose proof (Decode_finite (http.Body resp)) as Hfin.
  destruct (Decode Ygo.unmarshal Ygo.zero (http.Body resp)) as [r [e |]] eqn:Hd;
    simpl; [discriminate |].
  destruct (String.eqb (Ygo.Status r) "success") eqn:Hs; simpl; [| discriminate].
  intros H; injection H as <- <-.
  split; [reflexivity |]. split; [apply String.eqb_eq, Hs |].
  split; [exact Hfin |]. exists resp. split; [reflexivity | exact Hd].
Qed.

(** X7.  The print tag is what stands between the first and the second
    space of the text as it was sent: what follows the second space is
    ignored, and so is where in the text the command stands. *)
Theorem trailing_parts_are_ignored (body : webhookReqBody.t) (a b tail : string) :
  noSpace a = true -> noSpace b = true ->
  tail = EmptyString \/ (exists rest, tail = String " " rest) ->
  textOf body = a ++ String " " (b ++ tail) ->
  Contains (lower (textOf body)) command = true ->
  lookups (trace (handle body)) = [priceForPrintTag ++ b].
Proof.
  intros Ha Hb Ht Htext Hc.
  destruct (Split_two_parts a b tail Ha Hb Ht) as [rest Hs]. rewrite <- Htext in Hs.
  rewrite (handle_with_argument _ _ _ _ body a b rest Hc Hs). reflexivity.
Qed.

(** X8.  Every URL the handler requests from the pricing service is the
    fixed prefix followed by a print tag without a space. *)
Theorem looked_up_tag_has_no_space (reqBody url : string) :
  In url (lookups (trace (handler reqBody))) ->
  exists printTag, url = priceForPrintTag ++ printTag /\ noSpace printTag = true.
Proof.
  unfold webhookHandler. destruct (decode reqBody) as [body [err |]]; [intros [] |].
  destruct (handle_trace_cases body)
    as [H1 | [H1 | [tag [Hin H1]]]].
  - rewrite H1. intros [].
  - rewrite H1. intros [].
  - assert (Hl : lookups (trace (handle body)) = [priceForPrintTag ++ tag]).
    { destruct H1 as [H1 | [r [_ H1]]]; rewrite H1; reflexivity. }
    rewrite Hl. intros [<- | []]. exists tag. split; [reflexivity |].
    pose proof (Split_parts _ (textOf body) (le_n _)) as Hall.
    rewrite Forall_forall in Hall. apply Hall.
    destruct (Split (textOf body) " "); [destruct Hin | right; exact Hin].
Qed.

(** X9.  The pricing service is left alone exactly when the lower-cased
    text does not hold the command or the text as it was sent has no
    space. *)
Theorem no_lookup_iff (body : webhookReqBody.t) :
  lookups (trace (handle body)) = [] <->
  Contains (lower (textOf body)) command = false \/ noSpace (textOf body) = true.
Proof.
  destruct (Contains (lower (textOf body)) command) eqn:Hc.
  - destruct (noSpace (textOf body)) eqn:Hn.
    + split; [auto |]. intros _.
      rewrite handle_without_argument; [reflexivity | exact Hc | apply Split_short, Hn].
    + split; [| intros [H | H]; discriminate H]. intros Hl. exfalso.
      destruct (Split (textOf body) " ") as [| first [| printTag rest]] eqn:Hs.
      * apply (Split_nonempty _ Hs).
      * assert (Hlen : (List.length (Split (textOf body) " ") < 2)%nat)
          by (rewrite Hs; simpl; lia).
        apply Split_short in Hlen. congruence.
      * rewrite (handle_with_argument _ _ _ _ body first printTag rest Hc Hs) in Hl.
        discriminate Hl.
  - split; [auto |]. intros _. rewrite handle_without_command by exact Hc. reflexivity.
Qed.

(** X10.  The command is recognised in any mix of upper and lower case:
    when [unicode.ToLower] lowers ASCII letters, a text that holds the
    command once its ASCII letters are lowered, whatever other bytes it
    holds, is never answered with "Invalid command!". *)
Theorem command_is_found_in_any_case (body : webhookReqBody.t)
    (r : sendMessageReqBody.t) :
  lowersASCII unicode_ToLower ->
  Contains (lowerASCII (textOf body)) command = true ->
  In r (replies (trace (handle body))) ->
  sendMessageReqBody.Text r <> "Invalid command!".
Proof.
  intros Hf Hc.
  apply (Contains_ToLower_any_case unicode_ToLower Hf) in Hc.
  destruct (Split (textOf body) " ") as [| first [| printTag rest]] eqn:Hs.
  - rewrite handle_without_argument by (rewrite ?Hs; simpl; auto).
    intros [<- | []]. discriminate.
  - rewrite handle_without_argument by (rewrite ?Hs; simpl; auto).
    intros [<- | []]. discriminate.
  - rewrite (handle_with_argument _ _ _ _ body first printTag rest Hc Hs).
    destruct (fst (fetch printTag)) as [[response |] [err |]];
      intros [<- | []]; discriminate.
Qed.

(** X11.  [sendReply] makes one call whatever the platform answers: the
    POST of the chat ID and the text, as JSON, to the sendMessage URL of
    the token.  A refusal is not retried. *)
Theorem sendReply_posts_once (chatID : Z) (text : string) :
  trace (sendReply telegramBotApiToken net_Post chatID text) =
  [Post ("https://api.telegram.org/bot" ++ telegramBotApiToken ++ "/sendMessage")
     "application/json"
     (Marshalled {| sendMessageReqBody.ChatID := chatID;
                    sendMessageReqBody.Text := text |})] /\
  lookups (trace (sendReply telegramBotApiToken net_Post chatID text)) = [].
Proof.
  rewrite sendReply_trace. split; reflexivity.
Qed.

(** X12.  The command is not looked for in the first part: when it is the
    second part of the text, after any first word, the handler asks the
    pricing service for the command itself. *)
Theorem command_in_second_place_is_looked_up (body : webhookReqBody.t)
    (a tail : string) :
  lowersASCII unicode_ToLower ->
  noSpace a = true ->
  tail = EmptyString \/ (exists rest, tail = String " " rest) ->
  textOf body = a ++ String " " (command ++ tail) ->
  lookups (trace (handle body)) = [priceForPrintTag ++ command].
Proof.
  intros Hf Ha Ht Htext.
  assert (Hc : Contains (lower (textOf body)) command = true).
  { apply (Contains_ToLower unicode_ToLower Hf). apply Contains_iff.
    exists (a ++ " "), tail. rewrite Htext, append_assoc. reflexivity. }
  destruct (Split_two_parts a command tail Ha eq_refl Ht) as [rest Hs].
  rewrite <- Htext in Hs.
  rewrite (handle_with_argument _ _ _ _ body a command rest Hc Hs). reflexivity.
Qed.

End Coverage.

(** ** The properties on the sample surroundings *)

Lemma reply_text_is_one_of_three_witness :
  In (reply 42 "Invalid command!")
     (replies (trace (webhookHandler keepRune sampleToken pricing_Get accepting_Post
                        (updateBody "hello")))) /\
  (sendMessageReqBody.Text (reply 42 "Invalid command!") = "Invalid command!" \/
   sendMessageReqBody.Text (reply 42 "Invalid command!") = "Error fetching card price!" \/
   exists high average low,
     finite high = true /\ finite average = true /\ finite low = true /\
     sendMessageReqBody.Text (reply 42 "Invalid command!") = quoteReply high average low).
Proof.
  assert (Hin : In (reply 42 "Invalid command!")
                  (replies (trace (webhookHandler keepRune sampleToken pricing_Get
                                     accepting_Post (updateBody "hello")))))
    by (vm_compute; left; reflexivity).
  split; [exact Hin |].
  exact (reply_text_is_one_of_three keepRune sampleToken pricing_Get accepting_Post
           (updateBody "hello") (reply 42 "Invalid command!") Hin).
Defined.

Lemma pricing_status_is_ignored_witness :
  sameBody (pricing_Get (priceForPrintTag ++ "SDK-001"))
           (notFound_Get (priceForPrintTag ++ "SDK-001")) /\
  fetchCardPriceByPrintTag notFound_Get "SDK-001" =
  fetchCardPriceByPrintTag pricing_Get "SDK-001".
Proof.
  assert (Hs : sameBody (pricing_Get (priceForPrintTag ++ "SDK-001"))
                        (notFound_Get (priceForPrintTag ++ "SDK-001")))
    by reflexivity.
  split; [exact Hs |].
  exact (pricing_status_is_ignored pricing_Get notFound_Get "SDK-001" Hs).
Defined.

Lemma trailing_parts_are_ignored_witness :
  lookups (trace (handleUpdate keepRune sampleToken pricing_Get accepting_Post
                    (update "/priceprinttag SDK-001 please now" 42))) =
  [priceForPrintTag ++ "SDK-001"].
Proof.
  apply (trailing_parts_are_ignored keepRune sampleToken pricing_Get accepting_Post
           (update "/priceprinttag SDK-001 please now" 42)
           "/priceprinttag" "SDK-001" " please now");
    [reflexivity | reflexivity | right; exists "please now"; reflexivity
    | reflexivity | reflexivity].
Defined.

Lemma looked_up_tag_has_no_space_witness :
  In (priceForPrintTag ++ "SDK-001")
     (lookups (trace (webhookHandler keepRune sampleToken pricing_Get accepting_Post
                        (updateBody "/priceprinttag SDK-001 please")))) /\
  exists printTag,
    priceForPrintTag ++ "SDK-001" = priceForPrintTag ++ printTag /\
    noSpace printTag = true.
Proof.
  assert (Hin : In (priceForPrintTag ++ "SDK-001")
                  (lookups (trace (webhookHandler keepRune sampleToken pricing_Get
                                     accepting_Post
                                     (updateBody "/priceprinttag SDK-001 please")))))
    by (vm_compute; left; reflexivity).
  split; [exact Hin |].
  exact (looked_up_tag_has_no_space keepRune sampleToken pricing_Get accepting_Post
           (updateBody "/priceprinttag SDK-001 please") _ Hin).
Defined.

Lemma command_is_found_in_any_case_witness :
  lowersASCII asciiToLower /\
  Contains (lowerASCII "/PricePrintTAG") command = true /\
  In (reply 42 "Error fetching card price!")
     (replies (trace (handleUpdate asciiToLower sampleToken pricing_Get accepting_Post
                        (update "/PricePrintTAG" 42)))) /\
  sendMessageReqBody.Text (reply 42 "Error fetching card price!") <> "Invalid command!".
Proof.
  assert (Hin : In (reply 42 "Error fetching card price!")
                  (replies (trace (handleUpdate asciiToLower sampleToken pricing_Get
                                     accepting_Post (update "/PricePrintTAG" 42)))))
    by (vm_compute; left; reflexivity).
  split; [exact asciiToLower_lowersASCII |].
  split; [reflexivity |]. split; [exact Hin |].
  exact (command_is_found_in_any_case asciiToLower sampleToken pricing_Get accepting_Post
           (update "/PricePrintTAG" 42) (reply 42 "Error fetching card price!")
           asciiToLower_lowersASCII eq_refl Hin).
Defined.

Lemma fetched_response_is_success_witness :
  exists response,
    fst (fetchCardPriceByPrintTag pricing_Get "SDK-001") = (Some response, None) /\
    Ygo.Status response = "success" /\
    finitePrices (pricesOf response).
Proof.
  destruct (fst (fetchCardPriceByPrintTag pricing_Get "SDK-001"))
    as [[response |] err] eqn:Hf; [| vm_compute in Hf; discriminate Hf].
  destruct (fetched_response_is_success pricing_Get "SDK-001" response err Hf)
    as [-> [Hs [Hp _]]].
  exists response. auto.
Defined.

Lemma command_in_second_place_is_looked_up_witness :
  lowersASCII asciiToLower /\
  lookups (trace (handleUpdate asciiToLower sampleToken pricing_Get accepting_Post
                    (update "hello /priceprinttag SDK-001" 42))) =
  [priceForPrintTag ++ command].
Proof.
  split; [exact asciiToLower_lowersASCII |].
  apply (command_in_second_place_is_looked_up asciiToLower sampleToken pricing_Get
           accepting_Post (update "hello /priceprinttag SDK-001" 42) "hello" " SDK-001");
    [exact asciiToLower_lowersASCII | reflexivity
    | right; exists "SDK-001"; reflexivity | reflexivity].
Defined.
